(** * The batch mask-compositing engine of torque (RGBAProcessor)

    A shallow embedding of [RGBAProcessor::batch_create_rgba_optimized] and
    [RGBAProcessor::create_rgba_single] (the C++ extension that composites a
    colour image with a segmentation mask into an RGBA image), with the
    properties its specification states about them.

    Conventions.
    - A C++ [int] is a [Z] with the 32-bit wrap-around written out
      ([to_int]); [size_t] is a [Z] modulo 2^64 ([to_size_t]).
    - A byte ([uint8_t]) is a [Z] in 0..255; a pixel buffer is a [list Z]
      in the row-major, interleaved layout of a continuous [cv::Mat].
    - OpenCV's file access ([cv::imread], [cv::imwrite]) is a parameter of
      the development: a type of worlds with a read and a write operation.
    - The OpenMP [parallel for] is a schedule: the list of task indices in
      the order in which the workers advance them, one phase at a time. *)

From Stdlib Require Import ZArith Lia Floats.
From stdpp Require Import gmap strings list.

Open Scope Z_scope.

(** ** Machine integers *)

Definition INT_MAX : Z := 2147483647.

(** Conversion to (or wrapped result of an operation on) a 32-bit [int]. *)
Definition to_int (z : Z) : Z := (z + 2 ^ 31) mod 2 ^ 32 - 2 ^ 31.

(** Conversion to a 64-bit [size_t]. *)
Definition to_size_t (z : Z) : Z := z mod 2 ^ 64.

Definition int_mul (a b : Z) : Z := to_int (a * b).
Definition int_add (a b : Z) : Z := to_int (a + b).
Definition size_mul (a b : Z) : Z := to_size_t (a * b).


(** ** Buffers *)

(** [buf[off]] for reading. An access outside the buffer is undefined in the
    source; the model reads 0 there. *)
Definition load (buf : list Z) (off : Z) : Z :=
  if off <? 0 then 0 else default 0 (buf !! Z.to_nat off).

(** [buf[off] = v]. A store outside the buffer is undefined in the source;
    the model leaves the buffer as it is. *)
Definition store (buf : list Z) (off : Z) (v : Z) : list Z :=
  if off <? 0 then buf else <[Z.to_nat off := v]> buf.

(** [ptr + off] on a [const uint8_t*]: the view of the buffer from [off]. *)
Definition ptr_add (buf : list Z) (off : Z) : list Z := drop (Z.to_nat off) buf.

(** ** cv::Mat *)

Record Mat := mkMat { rows : Z; cols : Z; channels : Z; data : list Z }.

(** The default-constructed matrix, which [cv::imread] returns on failure. *)
Definition Mat_none : Mat := mkMat 0 0 0 [].

(** [Mat::empty()]: no data, or no element. *)
Definition Mat_empty (m : Mat) : bool :=
  match data m with
  | [] => true
  | _ :: _ => rows m * cols m =? 0
  end.

(** [cv::Mat(height, width, CV_8UC<c>)]: a fresh continuous buffer. Its
    content is unspecified in the source; the model fills it with 0. *)
Definition Mat_create (height width c : Z) : Mat :=
  mkMat height width c (replicate (Z.to_nat (height * width * c)) 0).

(** A continuous matrix of [c] interleaved 8-bit channels. *)
Definition Mat_wf (c : Z) (m : Mat) : Prop :=
  0 <= rows m <= INT_MAX /\ 0 <= cols m <= INT_MAX /\ channels m = c /\
  Z.of_nat (length (data m)) = rows m * cols m * c.

(** [cv::cvtColor(src, dst, cv::COLOR_BGR2RGB)] on the pixel data: the first
    and the third byte of every pixel change places. *)
Fixpoint swap_rb (d : list Z) : list Z :=
  match d with
  | b :: g :: r :: rest => r :: g :: b :: swap_rb rest
  | _ => d
  end.

Definition cvtColor_BGR2RGB (m : Mat) : Mat :=
  mkMat (rows m) (cols m) (channels m) (swap_rb (data m)).

(** ** The mask array (py::array_t<uint8_t>) *)

(** The buffer of a NumPy array: its shape and its bytes in row-major
    order. *)
Record PyArray := mkPyArray { shape : list Z; buf_data : list Z }.

Definition ndim (a : PyArray) : Z := Z.of_nat (length (shape a)).

(** [buf.shape[k]]. *)
Definition shape_at (a : PyArray) (k : nat) : Z := default 0 (shape a !! k).

Definition shape_product (s : list Z) : Z := foldr Z.mul 1 s.

(** A well-formed array buffer: every extent is a non-negative [ssize_t],
    and there is one byte per element. *)
Definition PyArray_wf (a : PyArray) : Prop :=
  Forall (fun d => 0 <= d < 2 ^ 63) (shape a) /\
  Z.of_nat (length (buf_data a)) = shape_product (shape a) /\
  shape_product (shape a) < 2 ^ 63.

(** ** The pixel loop *)

(** One iteration of the loop of the batch worker
    (lines 178 to 189 of the source). *)
Definition pixel_body (rgb_ptr mask_data : list Z) (rgba_ptr : list Z) (pixel : Z)
  : list Z :=
  let rgb_offset := int_mul pixel 3 in
  let rgba_offset := int_mul pixel 4 in
  let rgba_ptr := store rgba_ptr (int_add rgba_offset 0) (load rgb_ptr (int_add rgb_offset 0)) in
  let rgba_ptr := store rgba_ptr (int_add rgba_offset 1) (load rgb_ptr (int_add rgb_offset 1)) in
  let rgba_ptr := store rgba_ptr (int_add rgba_offset 2) (load rgb_ptr (int_add rgb_offset 2)) in
  store rgba_ptr (int_add rgba_offset 3) (if 0 <? load mask_data pixel then 255 else 0).

(** Lines 159 to 189: convert, locate the mask plane of task [i], allocate
    the output and run the loop over [pixel = 0 .. total_pixels - 1]. *)
Definition batch_composite (image : Mat) (masks_data : list Z) (i height width : Z)
  : Mat :=
  let image_rgb := cvtColor_BGR2RGB image in
  let mask_data :=
    ptr_add masks_data (size_mul (size_mul (to_size_t i) (to_size_t height)) (to_size_t width)) in
  let rgba_image := Mat_create height width 4 in
  let total_pixels := int_mul height width in
  mkMat (rows rgba_image) (cols rgba_image) (channels rgba_image)
    (foldl (pixel_body (data image_rgb) mask_data) (data rgba_image) (seqZ 0 total_pixels)).

(** One iteration of the loop of the single-image path
    (lines 290 to 298 of the source). *)
Definition single_pixel_body (rgb_ptr mask_data : list Z) (rgba_ptr : list Z) (pixel : Z)
  : list Z :=
  let rgb_offset := int_mul pixel 3 in
  let rgba_offset := int_mul pixel 4 in
  let rgba_ptr := store rgba_ptr (int_add rgba_offset 0) (load rgb_ptr (int_add rgb_offset 0)) in
  let rgba_ptr := store rgba_ptr (int_add rgba_offset 1) (load rgb_ptr (int_add rgb_offset 1)) in
  let rgba_ptr := store rgba_ptr (int_add rgba_offset 2) (load rgb_ptr (int_add rgb_offset 2)) in
  store rgba_ptr (int_add rgba_offset 3) (if 0 <? load mask_data pixel then 255 else 0).

(** Lines 278 to 298. *)
Definition single_composite (image : Mat) (mask_data : list Z) (height width : Z) : Mat :=
  let image_rgb := cvtColor_BGR2RGB image in
  let rgba_image := Mat_create height width 4 in
  let total_pixels := int_mul height width in
  mkMat (rows rgba_image) (cols rgba_image) (channels rgba_image)
    (foldl (single_pixel_body (data image_rgb) mask_data) (data rgba_image)
       (seqZ 0 total_pixels)).

(** The pixel rule of the specification, at pixel [p]: the output holds the
    three colour bytes of the converted source, then 255 where the mask byte
    is above 0 and 0 elsewhere. *)
Definition pixel_contract (rgb mask rgba : list Z) (p : Z) : Prop :=
  load rgba (4 * p) = load rgb (3 * p) /\
  load rgba (4 * p + 1) = load rgb (3 * p + 1) /\
  load rgba (4 * p + 2) = load rgb (3 * p + 2) /\
  load rgba (4 * p + 3) = (if 0 <? load mask p then 255 else 0).

(** ** Exceptions and results of the OpenCV calls *)

(** The exceptions of the source; every one derives from [std::exception]. *)
Inductive Exn :=
| invalid_argument (what : string)
| cv_Exception
| bad_alloc.

Definition is_std_exception (e : Exn) : bool :=
  match e with
  | invalid_argument _ => true
  | cv_Exception => true
  | bad_alloc => true
  end.

Inductive Outcome (A : Type) :=
| Returns (a : A)
| Throws (e : Exn).
Arguments Returns {A} a.
Arguments Throws {A} e.

(** [cv::imread(path, cv::IMREAD_COLOR)]: a matrix (the empty one when the
    file cannot be read or decoded), or an exception. *)
Inductive ReadResult :=
| ReadMat (m : Mat)
| ReadThrows (e : Exn).

(** [cv::imwrite(path, img, params)]: [true], [false], or an exception. *)
Inductive WriteResult :=
| WriteTrue
| WriteFalse
| WriteThrows (e : Exn).

(** What a call does that its caller can observe from outside: the OpenCV
    calls, and the two atomic increments with the task that made them. *)
Inductive Event :=
| EvRead (path : string)
| EvWrite (path : string) (img : Mat)
| EvProcessed (i : nat)
| EvError (i : nat).

(** ** Values of the returned py::dict *)

Inductive PyValue :=
| PyInt (z : Z)
| PyFloat (f : float)
| PyStrList (l : list string).

(** [int] (or [int64_t]) to [double]. *)
Definition double_of_int (z : Z) : float :=
  if z <? 0 then PrimFloat.opp (PrimFloat.of_uint63 (Uint63.of_Z (- z)))
  else PrimFloat.of_uint63 (Uint63.of_Z z).

(** [std::string::empty()]. *)
Definition string_empty (s : string) : bool :=
  match s with
  | EmptyString => true
  | String _ _ => false
  end.

(** [v[i]] on a [std::vector<std::string>]. *)
Definition path_at (v : list string) (i : nat) : string := default EmptyString (v !! i).

(** Where a task stands: not started, image composited and not yet written,
    or finished on the success or on the error branch. *)
Inductive TaskPhase :=
| Pending
| Loaded (rgba_image : Mat)
| Succeeded
| Failed.

Definition is_succeeded (p : TaskPhase) : bool :=
  match p with Succeeded => true | _ => false end.

Definition is_failed (p : TaskPhase) : bool :=
  match p with Failed => true | _ => false end.

Definition is_finished (p : TaskPhase) : bool := is_succeeded p || is_failed p.

(** The task an increment event belongs to. *)
Definition counter_event_of (i : nat) (e : Event) : bool :=
  match e with
  | EvProcessed j => Nat.eqb i j
  | EvError j => Nat.eqb i j
  | _ => false
  end.

Definition is_io_event (e : Event) : bool :=
  match e with
  | EvRead _ => true
  | EvWrite _ _ => true
  | _ => false
  end.

(** How many tasks are in a phase that [f] accepts. *)
Definition count_phase (f : TaskPhase -> bool) (l : list TaskPhase) : nat :=
  length (List.filter f l).

(** What the slot of a task holds, by its phase. *)
Definition slot_of (ph : TaskPhase) (path : string) : string :=
  if is_succeeded ph then path else EmptyString.

(** The increments task [i] made, in the order of the trace. *)
Definition counter_events (i : nat) (tr : list Event) : list Event :=
  List.filter (counter_event_of i) tr.

Definition succeeded_at (phs : list TaskPhase) (i : nat) : bool :=
  match phs !! i with
  | Some Succeeded => true
  | _ => false
  end.

(** The output paths of the successful tasks, by ascending task index: the
    list the specification asks of [output_files]. *)
Definition outputs_of_successful (phs : list TaskPhase) (output_paths : list string)
  : list string :=
  map (path_at output_paths) (List.filter (succeeded_at phs) (seq 0 (length phs))).

(** ** The report (lines 207 to 246) *)

(** [std::min(4, static_cast<int>(std::thread::hardware_concurrency()))]. *)
Definition max_threads_of (hardware_concurrency : Z) : Z :=
  Z.min 4 (to_int hardware_concurrency).

(** Lines 211 to 217: drop the empty entries. *)
Definition valid_output_files (output_files : list string) : list string :=
  List.filter (fun file => negb (string_empty file)) output_files.

(** [duration.count() / 1000.0]. *)
Definition processing_time_ms_of (duration_us : Z) : float :=
  (double_of_int duration_us / 1000)%float.

(** [processed.load() * height * width], an [int] product. *)
Definition total_pixels_of (processed height width : Z) : Z :=
  int_mul (int_mul processed height) width.

Definition avg_time_per_image_ms_of (processing_time_ms : float) (processed : Z) : float :=
  if 0 <? processed then (processing_time_ms / double_of_int processed)%float
  else 0%float.

Definition mpixels_per_sec_of (processing_time_ms : float) (processed height width : Z)
  : float :=
  let total_pixels := double_of_int (total_pixels_of processed height width) in
  ((total_pixels / 1e6) / (processing_time_ms / 1000))%float.

Definition build_results (processed errors : Z) (output_files : list string)
    (duration_us height width max_threads : Z) : gmap string PyValue :=
  let processing_time_ms := processing_time_ms_of duration_us in
  let results : gmap string PyValue := ∅ in
  let results := <["processed" := PyInt processed]> results in
  let results := <["errors" := PyInt errors]> results in
  let results := <["output_files" := PyStrList (valid_output_files output_files)]> results in
  let results := <["uploaded" := PyInt 0]> results in
  let results := <["processing_time_ms" := PyFloat processing_time_ms]> results in
  let results :=
    <["avg_time_per_image_ms" :=
        PyFloat (avg_time_per_image_ms_of processing_time_ms processed)]> results in
  let results :=
    <["throughput_mpix_per_sec" :=
        PyFloat (mpixels_per_sec_of processing_time_ms processed height width)]> results in
  <["threads_used" := PyInt max_threads]> results.

(** The field set the specification names for the report. *)
Definition spec_report_fields : gset string :=
  {[ "processed"; "errors"; "output_files"; "processing_time_ms";
     "avg_time_per_image_ms"; "throughput_mpix_per_sec"; "threads_used" ]}.

(** The field set of the source. *)
Definition code_report_fields : gset string := spec_report_fields ∪ {[ "uploaded" ]}.

(** ** The engine, over a world of files *)

Section Engine.

Variable World : Type.
Variable imread : World -> string -> ReadResult.
Variable imwrite : World -> string -> Mat -> WriteResult * World.

(** The state of the parallel loop: what the workers share ([processed],
    [errors], [output_files], and the files of the [world]), the point each
    iteration has reached ([phases], with the local image of an iteration
    between its load and its write), and the [trace] of what has happened
    so far. *)
Record LoopState := mkLoop {
  world : World;
  trace : list Event;
  processed : Z;
  errors : Z;
  output_files : list string;
  phases : list TaskPhase
}.

(** What the loop body reads and never writes. *)
Record TaskSet := mkTasks {
  ts_image_paths : list string;
  ts_masks_data : list Z;
  ts_output_paths : list string;
  ts_height : Z;
  ts_width : Z
}.

Variable ts : TaskSet.

(** [errors.fetch_add(1)] by task [i], which ends there. *)
Definition count_error (st : LoopState) (i : nat) : LoopState :=
  mkLoop (world st) (trace st ++ [EvError i]) (processed st) (int_add (errors st) 1)
    (output_files st) (<[i := Failed]> (phases st)).

(** Lines 144 to 189: load, check, composite. *)
Definition load_phase (st : LoopState) (i : nat) : LoopState :=
  let path := path_at (ts_image_paths ts) i in
  let st := mkLoop (world st) (trace st ++ [EvRead path]) (processed st) (errors st)
              (output_files st) (phases st) in
  match imread (world st) path with
  | ReadThrows _ => count_error st i
  | ReadMat image =>
      if Mat_empty image then count_error st i
      else if negb (rows image =? ts_height ts) || negb (cols image =? ts_width ts)
      then count_error st i
      else
        let rgba_image :=
          batch_composite image (ts_masks_data ts) (Z.of_nat i) (ts_height ts) (ts_width ts) in
        mkLoop (world st) (trace st) (processed st) (errors st) (output_files st)
          (<[i := Loaded rgba_image]> (phases st))
  end.

(** Lines 192 to 199 (and the handler, lines 201 to 204): write, record. *)
Definition write_phase (st : LoopState) (i : nat) (rgba_image : Mat) : LoopState :=
  let path := path_at (ts_output_paths ts) i in
  let '(r, w) := imwrite (world st) path rgba_image in
  let st := mkLoop w (trace st ++ [EvWrite path rgba_image]) (processed st) (errors st)
              (output_files st) (phases st) in
  match r with
  | WriteTrue =>
      mkLoop (world st) (trace st ++ [EvProcessed i]) (int_add (processed st) 1)
        (errors st) (<[i := path]> (output_files st)) (<[i := Succeeded]> (phases st))
  | WriteFalse => count_error st i
  | WriteThrows _ => count_error st i
  end.

(** A worker advances task [i] by one phase. *)
Definition task_step (st : LoopState) (i : nat) : LoopState :=
  match phases st !! i with
  | Some Pending => load_phase st i
  | Some (Loaded rgba_image) => write_phase st i rgba_image
  | _ => st
  end.

(** One whole iteration of the loop body. *)
Definition task_body (st : LoopState) (i : nat) : LoopState :=
  task_step (task_step st i) i.

(** The state before the loop: counters at 0, [num_images] empty slots. *)
Definition loop_init (w : World) (num_images : Z) : LoopState :=
  mkLoop w [] 0 0 (replicate (Z.to_nat num_images) EmptyString)
    (replicate (Z.to_nat num_images) Pending).

(** The parallel loop: the workers advance the tasks in the order [sched]
    gives, whatever it is, and at the end of the loop every iteration has
    run to its end. An iteration meets the other iterations only in the
    files it reads and writes and in the two counters; a step is therefore
    one call of OpenCV together with what the iteration does next on its
    own slot and with one atomic increment. *)
Definition parallel_for (st : LoopState) (sched : list nat) (num_images : Z) : LoopState :=
  foldl task_body (foldl task_step st sched) (seq 0 (Z.to_nat num_images)).

End Engine.

Arguments mkLoop {World} _ _ _ _ _ _.
Arguments world {World} _.
Arguments trace {World} _.
Arguments processed {World} _.
Arguments errors {World} _.
Arguments output_files {World} _.
Arguments phases {World} _.
Arguments count_error {World} st i.
Arguments loop_init {World} w num_images.

(** What holds of the shared state between any two steps of the workers:
    the slots and the counters are functions of the phases, a successful
    task has a named output, and a task has made one increment when it has
    finished and none before. *)
Definition loop_inv {World : Type} (ts : TaskSet) (st : LoopState World) : Prop :=
  length (phases st) = length (ts_output_paths ts) /\
  output_files st = zip_with slot_of (phases st) (ts_output_paths ts) /\
  processed st = Z.of_nat (count_phase is_succeeded (phases st)) /\
  errors st = Z.of_nat (count_phase is_failed (phases st)) /\
  (forall i, succeeded_at (phases st) i = true ->
             string_empty (path_at (ts_output_paths ts) i) = false) /\
  (forall i, counter_events i (trace st) =
             match phases st !! i with
             | Some Succeeded => [EvProcessed i]
             | Some Failed => [EvError i]
             | _ => []
             end).

(** ** What decides the end of a task *)

Section Outcomes.

Variable World : Type.
Variable imread : World -> string -> ReadResult.
Variable imwrite : World -> string -> Mat -> WriteResult * World.
Variable ts : TaskSet.

(** In world [w], the image of task [i] loads, is not empty and has the
    dimensions of the mask. *)
Definition load_ok (w : World) (i : nat) : bool :=
  match imread w (path_at (ts_image_paths ts) i) with
  | ReadMat image =>
      negb (Mat_empty image) && (rows image =? ts_height ts) && (cols image =? ts_width ts)
  | ReadThrows _ => false
  end.

(** In world [w], writing [rgba_image] to the output path of task [i]
    succeeds. *)
Definition write_ok (w : World) (i : nat) (rgba_image : Mat) : bool :=
  match (imwrite w (path_at (ts_output_paths ts) i) rgba_image).1 with
  | WriteTrue => true
  | _ => false
  end.

(** Every phase a task has reached has its cause in what the task's own
    files did: a task on the error branch failed to load or to write, a task
    on the success branch did both. *)
Definition phases_justified (st : LoopState World) : Prop :=
  forall i,
    match phases st !! i with
    | Some Failed =>
        (exists w, load_ok w i = false) \/ (exists w rgba, write_ok w i rgba = false)
    | Some Succeeded =>
        (exists w, load_ok w i = true) /\ (exists w rgba, write_ok w i rgba = true)
    | Some (Loaded _) => exists w, load_ok w i = true
    | _ => True
    end.

End Outcomes.

Arguments load_ok {World} imread ts w i.
Arguments write_ok {World} imwrite ts w i rgba_image.
Arguments phases_justified {World} imread imwrite ts st.

(** ** The two entry points *)

Section EntryPoints.

Variable World : Type.
Variable imread : World -> string -> ReadResult.
Variable imwrite : World -> string -> Mat -> WriteResult * World.

(** The result of a call: what it returns or throws, the world it leaves,
    and the events it caused. *)
Definition CallResult (A : Type) : Type := Outcome A * World * list Event.

(** [image_paths.size()] stored in [const int num_images]. *)
Definition num_images_of (image_paths : list string) : Z :=
  to_int (Z.of_nat (length image_paths)).

(** Lines 106 to 119: the three checks before the loop, in their order. *)
Definition preflight (image_paths : list string) (masks_array : PyArray)
    (output_paths : list string) : option Exn :=
  let num_images := num_images_of image_paths in
  if num_images =? 0 then Some (invalid_argument "No images provided")
  else if negb (to_size_t num_images =? Z.of_nat (length output_paths))
  then Some (invalid_argument "Number of image paths must match output paths")
  else if negb (ndim masks_array =? 3) || negb (shape_at masks_array 0 =? num_images)
  then Some (invalid_argument "Masks array must have shape (num_images, height, width)")
  else None.

(** Lines 121 to 128: what the loop works on. *)
Definition tasks_of (image_paths : list string) (masks_array : PyArray)
    (output_paths : list string) : TaskSet :=
  mkTasks image_paths (buf_data masks_array) output_paths
    (to_int (shape_at masks_array 1)) (to_int (shape_at masks_array 2)).

(** The shared state when the loop has ended, for the schedule [sched]. *)
Definition batch_loop (w : World) (sched : list nat) (image_paths : list string)
    (masks_array : PyArray) (output_paths : list string) : LoopState World :=
  let num_images := num_images_of image_paths in
  parallel_for World imread imwrite (tasks_of image_paths masks_array output_paths)
    (loop_init w num_images) sched num_images.

(** [RGBAProcessor::batch_create_rgba_optimized]. Besides the three
    arguments of the source: the world [w], the value [hardware_concurrency]
    of [std::thread::hardware_concurrency()], the microseconds [duration_us]
    between the two readings of the clock, and the schedule [sched]. *)
Definition batch_create_rgba_optimized (w : World) (hardware_concurrency duration_us : Z)
    (sched : list nat) (image_paths : list string) (masks_array : PyArray)
    (output_paths : list string) : CallResult (gmap string PyValue) :=
  match preflight image_paths masks_array output_paths with
  | Some e => (Throws e, w, [])
  | None =>
      let ts := tasks_of image_paths masks_array output_paths in
      let max_threads := max_threads_of hardware_concurrency in
      let st := batch_loop w sched image_paths masks_array output_paths in
      (Returns (build_results (processed st) (errors st) (output_files st) duration_us
                  (ts_height ts) (ts_width ts) max_threads),
       world st, trace st)
  end.

(** The body of the [try] block of [create_rgba_single]
    (lines 257 to 302). *)
Definition create_rgba_single_try (w : World) (image_path : string) (mask : PyArray)
    (output_path : string) : CallResult bool :=
  match imread w image_path with
  | ReadThrows e => (Throws e, w, [EvRead image_path])
  | ReadMat image =>
      if Mat_empty image then (Returns false, w, [EvRead image_path])
      else if negb (ndim mask =? 2)
      then (Throws (invalid_argument "Mask must be 2D array"), w, [EvRead image_path])
      else
        let height := to_int (shape_at mask 0) in
        let width := to_int (shape_at mask 1) in
        if negb (rows image =? height) || negb (cols image =? width)
        then (Returns false, w, [EvRead image_path])
        else
          let rgba_image := single_composite image (buf_data mask) height width in
          let events := [EvRead image_path; EvWrite output_path rgba_image] in
          match imwrite w output_path rgba_image with
          | (WriteTrue, w') => (Returns true, w', events)
          | (WriteFalse, w') => (Returns false, w', events)
          | (WriteThrows e, w') => (Throws e, w', events)
          end
  end.

(** [RGBAProcessor::create_rgba_single]: the [try] block under its handler
    for [std::exception] (lines 304 to 306). *)
Definition create_rgba_single (w : World) (image_path : string) (mask : PyArray)
    (output_path : string) : CallResult bool :=
  match create_rgba_single_try w image_path mask output_path with
  | (Throws e, w', events) =>
      if is_std_exception e then (Returns false, w', events) else (Throws e, w', events)
  | r => r
  end.

End EntryPoints.

Arguments batch_loop {World} imread imwrite w sched image_paths masks_array output_paths.
Arguments batch_create_rgba_optimized {World} imread imwrite w hardware_concurrency
  duration_us sched image_paths masks_array output_paths.
Arguments create_rgba_single_try {World} imread imwrite w image_path mask output_path.
Arguments create_rgba_single {World} imread imwrite w image_path mask output_path.
Arguments load_phase {World} imread ts st i.
Arguments write_phase {World} imwrite ts st i rgba_image.
Arguments task_step {World} imread imwrite ts st i.
Arguments task_body {World} imread imwrite ts st i.
Arguments parallel_for {World} imread imwrite ts st sched num_images.

(** ** The preconditions, in the specification's words

    The batch has at least one task, as many output paths as input paths,
    and a three-dimensional mask volume with one plane per task. *)
Definition batch_preconditions (image_paths : list string) (masks_array : PyArray)
    (output_paths : list string) : Prop :=
  (0 < length image_paths)%nat /\
  length output_paths = length image_paths /\
  ndim masks_array = 3 /\
  shape_at masks_array 0 = Z.of_nat (length image_paths).

(** ** One mask of the volume

    Plane [i] of a three-dimensional mask volume as a two-dimensional array
    (NumPy's [masks[i]]): the mask the single-image path takes for the image
    of task [i]. *)
Definition mask_plane (masks_array : PyArray) (i : nat) : PyArray :=
  let h := shape_at masks_array 1 in
  let w := shape_at masks_array 2 in
  mkPyArray [h; w]
    (take (Z.to_nat (h * w)) (drop (i * Z.to_nat (h * w)) (buf_data masks_array))).

(** A mask volume whose planes have the dimensions of an image. *)
Definition mask_volume_wf (masks_array : PyArray) : Prop :=
  PyArray_wf masks_array /\ ndim masks_array = 3 /\
  shape_at masks_array 1 <= INT_MAX /\ shape_at masks_array 2 <= INT_MAX.

(** ** A small world for the examples

    The input directory is a fixed table of decoded images; the world is the
    table of the files written so far. A path with no name finds no encoder
    ([cv::imwrite] throws), a locked path cannot be written ([cv::imwrite]
    returns [false]). *)

Definition disk_imread (inputs : gmap string Mat) (d : gmap string Mat) (path : string)
  : ReadResult :=
  ReadMat (default Mat_none (inputs !! path)).

Definition disk_imwrite (locked : list string) (d : gmap string Mat) (path : string)
    (img : Mat) : WriteResult * gmap string Mat :=
  if string_empty path then (WriteThrows cv_Exception, d)
  else if bool_decide (path ∈ locked) then (WriteFalse, d)
  else (WriteTrue, <[path := img]> d).

(** Three 1 x 2 masks, and three images of which the second is 2 x 1. *)
Definition demo_inputs : gmap string Mat :=
  {[ "in/a.jpg" := mkMat 1 2 3 [10; 20; 30; 40; 50; 60];
     "in/b.jpg" := mkMat 2 1 3 [11; 21; 31; 41; 51; 61];
     "in/c.jpg" := mkMat 1 2 3 [12; 22; 32; 42; 52; 62] ]}.

Definition demo_image_paths : list string := ["in/a.jpg"; "in/b.jpg"; "in/c.jpg"].
Definition demo_output_paths : list string := ["out/a.png"; "out/b.png"; "out/c.png"].
Definition demo_masks : PyArray := mkPyArray [3; 1; 2] [255; 0; 0; 0; 1; 7].

Definition demo_batch (sched : list nat) :=
  batch_create_rgba_optimized (disk_imread demo_inputs) (disk_imwrite []) ∅ 8 1500 sched
    demo_image_paths demo_masks demo_output_paths.

Definition demo_loop (sched : list nat) :=
  batch_loop (disk_imread demo_inputs) (disk_imwrite []) ∅ sched
    demo_image_paths demo_masks demo_output_paths.

(** ** Reading a trace *)

(** The paths handed to [cv::imread], in the order of the calls. *)
Definition read_paths (tr : list Event) : list string :=
  omap (fun e => match e with EvRead path => Some path | _ => None end) tr.

(** The paths handed to [cv::imwrite], in the order of the calls. *)
Definition written_paths (tr : list Event) : list string :=
  omap (fun e => match e with EvWrite path _ => Some path | _ => None end) tr.

(** The tasks whose phase [f] accepts, by ascending index. *)
Definition indices_where (f : TaskPhase -> bool) (phs : list TaskPhase) : list nat :=
  List.filter (fun i => match phs !! i with Some ph => f ph | None => false end)
    (seq 0 (length phs)).

Definition is_started (p : TaskPhase) : bool :=
  match p with Pending => false | _ => true end.

Section Replay.

Variable World : Type.
Variable imwrite : World -> string -> Mat -> WriteResult * World.

(** What an event does to the files: a call of [cv::imwrite] leaves the
    world that call leaves, anything else leaves the world as it is. *)
Definition replay_event (w : World) (e : Event) : World :=
  match e with
  | EvWrite path img => (imwrite w path img).2
  | _ => w
  end.

(** The world after the events of a trace, from the world [w]. *)
Definition replay (w : World) (tr : list Event) : World := foldl replay_event w tr.

End Replay.

Arguments replay_event {World} imwrite w e.
Arguments replay {World} imwrite w tr.

(** What the trace of the loop holds between any two steps: the images of
    the started tasks have been read, once each; a write has been tried for
    finished tasks only, once at most; and the output of every successful
    task is among the writes. *)
Definition footprint_inv {World : Type} (ts : TaskSet) (st : LoopState World) : Prop :=
  read_paths (trace st)
    ≡ₚ map (path_at (ts_image_paths ts)) (indices_where is_started (phases st)) /\
  written_paths (trace st)
    ⊆+ map (path_at (ts_output_paths ts)) (indices_where is_finished (phases st)) /\
  map (path_at (ts_output_paths ts)) (indices_where is_succeeded (phases st))
    ⊆+ written_paths (trace st).

(** The outcome of the calls of OpenCV for a task does not depend on the
    state of the files, nor on the image written. *)
Definition stable_outcomes {World : Type} (imread : World -> string -> ReadResult)
    (imwrite : World -> string -> Mat -> WriteResult * World) (ts : TaskSet) : Prop :=
  (forall w w' i, load_ok imread ts w i = load_ok imread ts w' i) /\
  (forall w w' i rgba rgba', write_ok imwrite ts w i rgba = write_ok imwrite ts w' i rgba').

(** ** The calls of a task, as the trace has them

    The trace [tr] of a call that began in the world [w0] records the calls
    of OpenCV for task [i]; the outcome of a call is its outcome in the
    world that the events before it had left. *)

Section TracedCalls.

Variable World : Type.
Variable imread : World -> string -> ReadResult.
Variable imwrite : World -> string -> Mat -> WriteResult * World.
Variable ts : TaskSet.
Variable w0 : World.

(** The image of task [i] was read, and loaded with the dimensions of the
    mask. *)
Definition load_succeeded (tr : list Event) (i : nat) : Prop :=
  exists tr1 tr2,
    tr = tr1 ++ EvRead (path_at (ts_image_paths ts) i) :: tr2 /\
    load_ok imread ts (replay imwrite w0 tr1) i = true.

(** The image of task [i] was read and did not load so; the task counted an
    error next. *)
Definition load_failed (tr : list Event) (i : nat) : Prop :=
  exists tr1 tr2,
    tr = tr1 ++ EvRead (path_at (ts_image_paths ts) i) :: EvError i :: tr2 /\
    load_ok imread ts (replay imwrite w0 tr1) i = false.

(** [cv::imwrite] was called on the output path of task [i] and returned
    [true]; the task counted itself processed next. *)
Definition write_succeeded (tr : list Event) (i : nat) : Prop :=
  exists tr1 tr2 rgba,
    tr = tr1 ++ EvWrite (path_at (ts_output_paths ts) i) rgba :: EvProcessed i :: tr2 /\
    write_ok imwrite ts (replay imwrite w0 tr1) i rgba = true.

(** [cv::imwrite] was called on the output path of task [i] and did not
    return [true]; the task counted an error next. *)
Definition write_failed (tr : list Event) (i : nat) : Prop :=
  exists tr1 tr2 rgba,
    tr = tr1 ++ EvWrite (path_at (ts_output_paths ts) i) rgba :: EvError i :: tr2 /\
    write_ok imwrite ts (replay imwrite w0 tr1) i rgba = false.

(** What the trace must hold of a task in the phase [ph]. *)
Definition phase_traced (tr : list Event) (i : nat) (ph : TaskPhase) : Prop :=
  match ph with
  | Pending => True
  | Loaded _ => load_succeeded tr i
  | Succeeded => load_succeeded tr i /\ write_succeeded tr i
  | Failed => load_failed tr i \/ (load_succeeded tr i /\ write_failed tr i)
  end.

(** Between any two steps of the workers, the world is the one the writes
    of the trace have left, and every task is in the phase that the outcomes
    of its own calls put it in. *)
Definition outcomes_traced (st : LoopState World) : Prop :=
  world st = replay imwrite w0 (trace st) /\
  forall i ph, phases st !! i = Some ph -> phase_traced (trace st) i ph.

(** The outcome of the calls for each of the first [n] tasks is decided by
    the task alone, whatever the state of the files and the image written:
    [good i] says that the image of task [i] loads with the dimensions of
    the mask and that its output path can be written. *)
Definition outcomes_decided_by (n : nat) (good : nat -> bool) : Prop :=
  forall i, (i < n)%nat ->
    if good i
    then (forall w, load_ok imread ts w i = true) /\
         (forall w rgba, write_ok imwrite ts w i rgba = true)
    else (forall w, load_ok imread ts w i = false) \/
         (forall w rgba, write_ok imwrite ts w i rgba = false).

End TracedCalls.

Arguments load_succeeded {World} imread imwrite ts w0 tr i.
Arguments load_failed {World} imread imwrite ts w0 tr i.
Arguments write_succeeded {World} imwrite ts w0 tr i.
Arguments write_failed {World} imwrite ts w0 tr i.
Arguments phase_traced {World} imread imwrite ts w0 tr i ph.
Arguments outcomes_traced {World} imread imwrite ts w0 st.
Arguments outcomes_decided_by {World} imread imwrite ts n good.

(** ** The capability query (lines 312 to 348) *)

Inductive InfoValue :=
| InfoBool (b : bool)
| InfoInt (z : Z)
| InfoStr (s : string).

(** What the preprocessor sees when the extension is built: the value of
    [_OPENMP] when it is defined, and whether the condition on each of the
    other macros holds. *)
Record BuildConfig := mkBuild {
  cfg_OPENMP : option Z;
  cfg_AVX512F : bool;
  cfg_AVX2 : bool;
  cfg_AVX : bool;
  cfg_SSE4_2 : bool;
  cfg_OPTIMIZE : bool
}.

(** [_OPENMP] is defined. *)
Definition openmp_enabled (cfg : BuildConfig) : bool :=
  match cfg_OPENMP cfg with
  | Some _ => true
  | None => false
  end.

(** Lines 328 to 338: the first of the four conditions that holds. *)
Definition simd_level_of (cfg : BuildConfig) : string :=
  if cfg_AVX512F cfg then "AVX-512"
  else if cfg_AVX2 cfg then "AVX2"
  else if cfg_AVX cfg then "AVX"
  else if cfg_SSE4_2 cfg then "SSE4.2"
  else "basic".

(** [RGBAProcessor::get_optimization_info]. Besides the build: the values
    of [omp_get_max_threads()], [omp_get_num_procs()] and
    [std::thread::hardware_concurrency()]. *)
Definition get_optimization_info (cfg : BuildConfig)
    (omp_max_threads omp_num_procs hardware_concurrency : Z) : gmap string InfoValue :=
  let info : gmap string InfoValue := ∅ in
  let info :=
    match cfg_OPENMP cfg with
    | Some version =>
        let info := <["openmp_enabled" := InfoBool true]> info in
        let info := <["omp_max_threads" := InfoInt omp_max_threads]> info in
        let info := <["omp_num_procs" := InfoInt omp_num_procs]> info in
        <["openmp_version" := InfoInt version]> info
    | None =>
        let info := <["openmp_enabled" := InfoBool false]> info in
        <["omp_max_threads" := InfoInt 1]> info
    end in
  let info := <["hardware_concurrency" := InfoInt (to_int hardware_concurrency)]> info in
  let info := <["simd_level" := InfoStr (simd_level_of cfg)]> info in
  <["compiler_optimization" := InfoBool (cfg_OPTIMIZE cfg)]> info.

(** The instruction sets the query can name, from the narrowest. *)
Definition simd_rank (level : string) : nat :=
  if String.eqb level "AVX-512" then 4
  else if String.eqb level "AVX2" then 3
  else if String.eqb level "AVX" then 2
  else if String.eqb level "SSE4.2" then 1
  else 0.

(** The build enables the instruction set of rank [r]. *)
Definition simd_enabled (cfg : BuildConfig) (r : nat) : bool :=
  match r with
  | 4%nat => cfg_AVX512F cfg
  | 3%nat => cfg_AVX2 cfg
  | 2%nat => cfg_AVX cfg
  | 1%nat => cfg_SSE4_2 cfg
  | _ => false
  end.

(** ** The gradient of the text component (GradientText, lines 18 to 19) *)

(** [a[k]] on a JavaScript array whose elements are strings or
    [undefined] ([None]): outside the array it is [undefined]. *)
Definition js_at (a : list (option string)) (k : Z) : option string :=
  if k <? 0 then None else default None (a !! Z.to_nat k).

(** [x === y] on values that are strings or [undefined]. *)
Definition js_strict_eq (x y : option string) : bool := bool_decide (x = y).

(** [colors[colors.length - 1] === colors[0] ? colors : [...colors, colors[0]]]. *)
Definition loopingColors (colors : list (option string)) : list (option string) :=
  if js_strict_eq (js_at colors (Z.of_nat (length colors) - 1)) (js_at colors 0)
  then colors
  else colors ++ [js_at colors 0].

(** * Properties *)

(** ** Machine integers *)

Lemma to_int_id (z : Z) : - 2 ^ 31 <= z <= INT_MAX -> to_int z = z.
Proof.
  unfold to_int, INT_MAX. intros H.
  rewrite Z.mod_small by lia. lia.
Qed.

Lemma to_int_range (z : Z) : - 2 ^ 31 <= to_int z <= INT_MAX.
Proof.
  unfold to_int, INT_MAX.
  pose proof (Z.mod_pos_bound (z + 2 ^ 31) (2 ^ 32)). lia.
Qed.

Lemma to_size_t_id (z : Z) : 0 <= z < 2 ^ 64 -> to_size_t z = z.
Proof. unfold to_size_t. intros H. now rewrite Z.mod_small. Qed.

(** ** Buffers *)

Section Buffers.

Implicit Types (buf : list Z) (off v : Z).

Lemma store_length buf off v : length (store buf off v) = length buf.
Proof. unfold store. destruct (off <? 0); [done | apply length_insert]. Qed.

Lemma load_store_eq buf off v :
  0 <= off < Z.of_nat (length buf) -> load (store buf off v) off = v.
Proof.
  intros H. unfold load, store.
  destruct (off <? 0) eqn:E; [lia |].
  rewrite list_lookup_insert_eq by lia. done.
Qed.

Lemma load_store_ne buf off off' v :
  off <> off' -> load (store buf off v) off' = load buf off'.
Proof.
  intros H. unfold load, store.
  destruct (off' <? 0) eqn:E'; [done |].
  destruct (off <? 0) eqn:E; [done |].
  rewrite list_lookup_insert_ne by lia. done.
Qed.

Lemma load_ptr_add buf off p :
  0 <= off -> 0 <= p -> load (ptr_add buf off) p = load buf (off + p).
Proof.
  intros Hoff Hp. unfold load, ptr_add.
  destruct (p <? 0) eqn:E; [lia |].
  destruct (off + p <? 0) eqn:E'; [lia |].
  rewrite lookup_drop. do 2 f_equal. lia.
Qed.

Lemma load_lookup buf off :
  0 <= off < Z.of_nat (length buf) -> buf !! Z.to_nat off = Some (load buf off).
Proof.
  intros H. unfold load.
  destruct (off <? 0) eqn:E; [lia |].
  destruct (lookup_lt_is_Some_2 buf (Z.to_nat off)) as [x Hx]; [lia |].
  now rewrite Hx.
Qed.

End Buffers.

(** ** The colour conversion *)

Lemma swap_rb_length (d : list Z) : length (swap_rb d) = length d.
Proof.
  induction d as [d IH] using (well_founded_induction
    (well_founded_ltof _ (@length Z))).
  destruct d as [| b [| g [| r rest]]]; try reflexivity.
  cbn [swap_rb length]. rewrite IH; [done |].
  unfold ltof. cbn [length]. lia.
Qed.

(** Pixel [p] of the converted data is pixel [p] of the source with its
    first and third byte exchanged. *)
Lemma swap_rb_lookup (p : nat) : forall d : list Z,
  (3 * p + 2 < length d)%nat ->
  swap_rb d !! (3 * p)%nat = d !! (3 * p + 2)%nat /\
  swap_rb d !! (3 * p + 1)%nat = d !! (3 * p + 1)%nat /\
  swap_rb d !! (3 * p + 2)%nat = d !! (3 * p)%nat.
Proof.
  induction p as [| p IH]; intros d Hlen.
  - destruct d as [| b [| g [| r rest]]]; cbn [length] in Hlen; try lia.
    repeat split; reflexivity.
  - destruct d as [| b [| g [| r rest]]]; cbn [length] in Hlen; try lia.
    replace (3 * S p)%nat with (S (S (S (3 * p)))) by lia.
    cbn [swap_rb Nat.add lookup list_lookup].
    destruct (IH rest) as (H0 & H1 & H2); [lia |].
    replace (3 * p + 1)%nat with (S (3 * p)) in H1 by lia.
    replace (3 * p + 2)%nat with (S (S (3 * p))) in H0, H2 by lia.
    replace (3 * p + 1)%nat with (S (3 * p)) by lia.
    replace (3 * p + 2)%nat with (S (S (3 * p))) by lia.
    cbn [lookup list_lookup]. auto.
Qed.

Lemma load_swap_rb (d : list Z) (p : Z) :
  0 <= p -> 3 * p + 2 < Z.of_nat (length d) ->
  load (swap_rb d) (3 * p) = load d (3 * p + 2) /\
  load (swap_rb d) (3 * p + 1) = load d (3 * p + 1) /\
  load (swap_rb d) (3 * p + 2) = load d (3 * p).
Proof.
  intros Hp Hlen.
  destruct (swap_rb_lookup (Z.to_nat p) d) as (H0 & H1 & H2); [lia |].
  unfold load.
  replace (3 * p <? 0) with false by lia.
  replace (3 * p + 1 <? 0) with false by lia.
  replace (3 * p + 2 <? 0) with false by lia.
  replace (Z.to_nat (3 * p)) with (3 * Z.to_nat p)%nat by lia.
  replace (Z.to_nat (3 * p + 1)) with (3 * Z.to_nat p + 1)%nat by lia.
  replace (Z.to_nat (3 * p + 2)) with (3 * Z.to_nat p + 2)%nat by lia.
  rewrite H0, H1, H2. done.
Qed.

(** ** The pixel loop *)

Section PixelLoop.

Variables (rgb mask : list Z) (n : Z).
Hypothesis offsets_fit : 4 * n <= 2 ^ 31.

Lemma pixel_offsets (p : Z) :
  0 <= p < n ->
  int_mul p 3 = 3 * p /\ int_mul p 4 = 4 * p /\
  (forall c, 0 <= c <= 3 -> int_add (3 * p) c = 3 * p + c) /\
  (forall c, 0 <= c <= 3 -> int_add (4 * p) c = 4 * p + c).
Proof.
  intros Hp. unfold int_mul, int_add.
  repeat split; intros; rewrite to_int_id; unfold INT_MAX; lia.
Qed.

(** One iteration establishes the rule at its pixel and touches no other. *)
Lemma pixel_body_spec (buf : list Z) (p : Z) :
  0 <= p < n -> Z.of_nat (length buf) = 4 * n ->
  length (pixel_body rgb mask buf p) = length buf /\
  pixel_contract rgb mask (pixel_body rgb mask buf p) p /\
  forall q, q < 4 * p \/ 4 * p + 3 < q ->
    load (pixel_body rgb mask buf p) q = load buf q.
Proof.
  intros Hp Hlen. unfold pixel_body.
  destruct (pixel_offsets p Hp) as (-> & -> & H3 & H4).
  rewrite !H3, !H4 by lia. rewrite !Z.add_0_r.
  split; [now rewrite !store_length |].
  split.
  - unfold pixel_contract. repeat split.
    + rewrite !load_store_ne by lia. apply load_store_eq. lia.
    + rewrite !load_store_ne by lia. apply load_store_eq.
      rewrite !store_length. lia.
    + rewrite !load_store_ne by lia. apply load_store_eq.
      rewrite !store_length. lia.
    + apply load_store_eq. rewrite !store_length. lia.
  - intros q Hq. rewrite !load_store_ne by lia. done.
Qed.

(** After the first [k] iterations the rule holds at the first [k] pixels. *)
Lemma pixel_loop_spec (buf : list Z) (k : nat) :
  Z.of_nat k <= n -> Z.of_nat (length buf) = 4 * n ->
  length (foldl (pixel_body rgb mask) buf (seqZ 0 (Z.of_nat k))) = length buf /\
  forall p, 0 <= p < Z.of_nat k ->
    pixel_contract rgb mask (foldl (pixel_body rgb mask) buf (seqZ 0 (Z.of_nat k))) p.
Proof.
  intros Hk Hlen. induction k as [| k IH].
  - split; [done | intros p Hp; lia].
  - destruct IH as [IHlen IHpix]; [lia |].
    replace (Z.of_nat (S k)) with (Z.of_nat k + 1) by lia.
    rewrite seqZ_app by lia. rewrite foldl_app. cbn [seqZ foldl].
    change (seqZ (0 + Z.of_nat k) 1) with (seqZ (0 + Z.of_nat k) (Z.of_nat 1)).
    set (mid := foldl (pixel_body rgb mask) buf (seqZ 0 (Z.of_nat k))) in *.
    replace (seqZ (0 + Z.of_nat k) (Z.of_nat 1)) with [Z.of_nat k]
      by (unfold seqZ; cbn; f_equal; lia).
    cbn [foldl].
    destruct (pixel_body_spec mid (Z.of_nat k)) as (Hl & Hc & Hframe); [lia | lia |].
    split; [lia |].
    intros p Hp. destruct (decide (p = Z.of_nat k)) as [-> | Hne]; [done |].
    destruct (IHpix p) as (H0 & H1 & H2 & H3); [lia |].
    unfold pixel_contract. rewrite !Hframe by lia. done.
Qed.

End PixelLoop.

(** ** The compositor of the batch worker *)

(** The position of mask plane [i] in the volume. *)
Lemma mask_plane_offset (i height width : Z) :
  0 <= i <= INT_MAX -> 0 <= height <= INT_MAX -> 0 <= width <= INT_MAX ->
  height * width <= 2 ^ 31 ->
  size_mul (size_mul (to_size_t i) (to_size_t height)) (to_size_t width)
  = i * height * width.
Proof.
  unfold INT_MAX. intros Hi Hh Hw Hhw. unfold size_mul.
  rewrite (to_size_t_id i), (to_size_t_id height), (to_size_t_id width) by lia.
  assert (Hih : 0 <= i * height <= 2147483647 * 2147483647).
  { split; [lia | apply Z.mul_le_mono_nonneg; lia]. }
  assert (Hihw : 0 <= i * (height * width) <= 2147483647 * 2 ^ 31).
  { split; [lia | apply Z.mul_le_mono_nonneg; lia]. }
  rewrite (to_size_t_id (i * height)) by lia.
  apply to_size_t_id. lia.
Qed.

Lemma batch_composite_spec (image : Mat) (masks_data : list Z) (i height width : Z) :
  Mat_wf 3 image -> rows image = height -> cols image = width ->
  4 * (height * width) <= 2 ^ 31 -> 0 <= i <= INT_MAX ->
  rows (batch_composite image masks_data i height width) = height /\
  cols (batch_composite image masks_data i height width) = width /\
  channels (batch_composite image masks_data i height width) = 4 /\
  Z.of_nat (length (data (batch_composite image masks_data i height width)))
  = 4 * (height * width) /\
  forall p, 0 <= p < height * width ->
    pixel_contract (swap_rb (data image))
      (ptr_add masks_data (i * height * width))
      (data (batch_composite image masks_data i height width)) p.
Proof.
  intros (Hr & Hc & _ & Hlen) <- <- Hfit Hi.
  unfold batch_composite. cbn [rows cols channels data Mat_create cvtColor_BGR2RGB].
  rewrite mask_plane_offset by lia.
  assert (Hpix : 0 <= rows image * cols image) by nia.
  unfold int_mul. rewrite (to_int_id (rows image * cols image)) by (unfold INT_MAX; lia).
  destruct (pixel_loop_spec (swap_rb (data image))
              (ptr_add masks_data (i * rows image * cols image))
              (rows image * cols image) Hfit
              (replicate (Z.to_nat (rows image * cols image * 4)) 0)
              (Z.to_nat (rows image * cols image))) as [Hl Hp].
  { lia. }
  { rewrite length_replicate. lia. }
  rewrite Z2Nat.id in Hl, Hp by lia.
  do 3 (split; [done |]).
  split; [| exact Hp].
  rewrite Hl, length_replicate. lia.
Qed.

(** ** One worker iteration *)

Section Worker.

Variable World : Type.
Variable imread : World -> string -> ReadResult.
Variable imwrite : World -> string -> Mat -> WriteResult * World.
Variable ts : TaskSet.

Implicit Types (st : LoopState World) (i : nat).

(** A task whose image loads with the dimensions of the mask goes on to the
    write with the composited image. *)
Lemma load_phase_loaded st i image :
  imread (world st) (path_at (ts_image_paths ts) i) = ReadMat image ->
  Mat_empty image = false ->
  rows image = ts_height ts -> cols image = ts_width ts ->
  load_phase imread ts st i =
  mkLoop (world st) (trace st ++ [EvRead (path_at (ts_image_paths ts) i)])
    (processed st) (errors st) (output_files st)
    (<[i := Loaded (batch_composite image (ts_masks_data ts) (Z.of_nat i)
                      (ts_height ts) (ts_width ts))]> (phases st)).
Proof.
  intros Hread Hne Hr Hc. unfold load_phase. cbn [world].
  rewrite Hread, Hne, Hr, Hc, !Z.eqb_refl. reflexivity.
Qed.

(** The write phase hands exactly the loaded image to [cv::imwrite]. *)
Lemma write_phase_trace st i rgba :
  exists tail,
    trace (write_phase imwrite ts st i rgba)
    = trace st ++ EvWrite (path_at (ts_output_paths ts) i) rgba :: tail.
Proof.
  unfold write_phase.
  destruct (imwrite (world st) (path_at (ts_output_paths ts) i) rgba) as [[| | e] w];
    cbn [trace count_error]; rewrite <- app_assoc; eauto.
Qed.

(** C1. For every task whose image loads with the dimensions of the mask
    plane, the RGBA image the worker builds and hands to the writer has the
    mask's dimensions and four channels, and at every pixel [p] its R, G and
    B bytes are those of the BGR-to-RGB converted source (the source's
    third, second and first byte) and its alpha byte is 255 when the mask
    byte of the task's plane at [p] is above 0, and 0 otherwise. The sizes
    are those for which the [int] offsets of the loop are defined. *)
Theorem batch_task_pixels st i image :
  phases st !! i = Some Pending ->
  imread (world st) (path_at (ts_image_paths ts) i) = ReadMat image ->
  Mat_empty image = false -> Mat_wf 3 image ->
  rows image = ts_height ts -> cols image = ts_width ts ->
  4 * (ts_height ts * ts_width ts) <= 2 ^ 31 -> Z.of_nat i <= INT_MAX ->
  (Z.of_nat i + 1) * (ts_height ts * ts_width ts) <= Z.of_nat (length (ts_masks_data ts)) ->
  exists rgba : Mat,
    phases (task_step imread imwrite ts st i) !! i = Some (Loaded rgba) /\
    EvWrite (path_at (ts_output_paths ts) i) rgba ∈ trace (task_body imread imwrite ts st i) /\
    rows rgba = ts_height ts /\ cols rgba = ts_width ts /\ channels rgba = 4 /\
    Z.of_nat (length (data rgba)) = 4 * (ts_height ts * ts_width ts) /\
    forall p, 0 <= p < ts_height ts * ts_width ts ->
      pixel_contract (data (cvtColor_BGR2RGB image))
        (ptr_add (ts_masks_data ts) (Z.of_nat i * ts_height ts * ts_width ts)) (data rgba) p /\
      load (data rgba) (4 * p) = load (data image) (3 * p + 2) /\
      load (data rgba) (4 * p + 1) = load (data image) (3 * p + 1) /\
      load (data rgba) (4 * p + 2) = load (data image) (3 * p) /\
      load (data rgba) (4 * p + 3)
      = (if 0 <? load (ts_masks_data ts) (Z.of_nat i * ts_height ts * ts_width ts + p)
         then 255 else 0).
Proof.
  intros Hphase Hread Hne Hwf Hr Hc Hfit Hi Hplane.
  pose proof (lookup_lt_Some _ _ _ Hphase) as Hlt.
  assert (Hstep : task_step imread imwrite ts st i = load_phase imread ts st i).
  { unfold task_step. now rewrite Hphase. }
  rewrite (load_phase_loaded st i image Hread Hne Hr Hc) in Hstep.
  set (rgba := batch_composite image (ts_masks_data ts) (Z.of_nat i) (ts_height ts) (ts_width ts))
    in *.
  exists rgba.
  assert (Hloaded : phases (task_step imread imwrite ts st i) !! i = Some (Loaded rgba)).
  { rewrite Hstep. cbn [phases]. now apply list_lookup_insert_eq. }
  split; [exact Hloaded |].
  split.
  { unfold task_body. unfold task_step at 1. rewrite Hloaded.
    destruct (write_phase_trace (task_step imread imwrite ts st i) i rgba) as [tail ->].
    rewrite elem_of_app. right. left. }
  destruct (batch_composite_spec image (ts_masks_data ts) (Z.of_nat i) (ts_height ts) (ts_width ts))
    as (Hrows & Hcols & Hch & Hlen & Hpix); try done; [lia |].
  fold rgba in Hrows, Hcols, Hch, Hlen, Hpix.
  do 4 (split; [done |]).
  intros p Hp. specialize (Hpix p Hp).
  destruct Hwf as (Hr0 & Hc0 & _ & Hdata).
  destruct (load_swap_rb (data image) p) as (S0 & S1 & S2); [lia | nia |].
  destruct Hpix as (P0 & P1 & P2 & P3).
  split; [done |].
  rewrite P0, P1, P2, P3, S0, S1, S2.
  rewrite load_ptr_add by nia. done.
Qed.

End Worker.

(** ** Counting and compaction over the list of phases *)

Section PhaseLists.

Implicit Types (l : list TaskPhase) (f : TaskPhase -> bool).

Lemma count_phase_insert f l (i : nat) x y :
  l !! i = Some x ->
  (count_phase f (<[i := y]> l) + Nat.b2n (f x) = count_phase f l + Nat.b2n (f y))%nat.
Proof.
  unfold count_phase. revert i. induction l as [| a l IH]; intros i Hi; [done |].
  destruct i as [| i]; cbn in Hi.
  - injection Hi as ->. cbn [insert list_insert List.filter].
    destruct (f x), (f y); cbn [length Nat.b2n]; lia.
  - specialize (IH i Hi). change (<[S i := y]> (a :: l)) with (a :: <[i := y]> l).
    cbn [List.filter].
    destruct (f a); cbn [length]; lia.
Qed.

Lemma count_phase_le f l : (count_phase f l <= length l)%nat.
Proof.
  unfold count_phase. induction l as [| a l IH]; [done |].
  cbn [List.filter]. destruct (f a); cbn [length]; lia.
Qed.

(** Success and error are different ends. *)
Lemma count_phase_ends l :
  (count_phase is_succeeded l + count_phase is_failed l <= length l)%nat.
Proof.
  unfold count_phase. induction l as [| a l IH]; [done |].
  cbn [List.filter]. destruct a; cbn [is_succeeded is_failed length]; lia.
Qed.

Lemma count_phase_all_finished l :
  Forall (fun ph => is_finished ph = true) l ->
  (count_phase is_succeeded l + count_phase is_failed l = length l)%nat.
Proof.
  unfold count_phase. induction 1 as [| a l Ha _ IH]; [done |].
  cbn [List.filter]. destruct a; cbn in Ha; try discriminate;
    cbn [is_succeeded is_failed length]; lia.
Qed.

End PhaseLists.

(** ** Slots and compaction *)

Lemma zip_with_slot_insert (phs : list TaskPhase) (outs : list string) (i : nat) x y :
  phs !! i = Some x -> is_succeeded x = false -> is_succeeded y = false ->
  zip_with slot_of (<[i := y]> phs) outs = zip_with slot_of phs outs.
Proof.
  revert i outs. induction phs as [| a phs IH]; intros i outs Hi Hx Hy; [done |].
  destruct i as [| i]; cbn in Hi.
  - injection Hi as ->. destruct outs as [| o outs]; [done |].
    cbn. unfold slot_of. now rewrite Hx, Hy.
  - change (<[S i := y]> (a :: phs)) with (a :: <[i := y]> phs).
    destruct outs as [| o outs]; [done |].
    cbn [zip_with]. f_equal. now apply IH.
Qed.

Lemma zip_with_slot_success (phs : list TaskPhase) (outs : list string) (i : nat) :
  (i < length phs)%nat ->
  zip_with slot_of (<[i := Succeeded]> phs) outs
  = <[i := path_at outs i]> (zip_with slot_of phs outs).
Proof.
  revert i outs. induction phs as [| a phs IH]; intros i outs Hi; [cbn in Hi; lia |].
  destruct i as [| i]; [destruct outs; done |].
  change (<[S i := Succeeded]> (a :: phs)) with (a :: <[i := Succeeded]> phs).
  destruct outs as [| o outs]; [done |].
  cbn [zip_with]. cbn [length] in Hi.
  change (path_at (o :: outs) (S i)) with (path_at outs i).
  change (<[S i := path_at outs i]> (slot_of a o :: zip_with slot_of phs outs))
    with (slot_of a o :: <[i := path_at outs i]> (zip_with slot_of phs outs)).
  f_equal. apply IH. lia.
Qed.

Lemma filter_map_S (f : nat -> bool) (l : list nat) :
  List.filter f (map S l) = map S (List.filter (fun j => f (S j)) l).
Proof.
  induction l as [| a l IH]; [done |].
  cbn [map List.filter]. destruct (f (S a)); cbn [map]; now rewrite IH.
Qed.

Lemma outputs_of_successful_cons ph phs o outs :
  outputs_of_successful (ph :: phs) (o :: outs)
  = (if is_succeeded ph then [o] else []) ++ outputs_of_successful phs outs.
Proof.
  unfold outputs_of_successful. cbn [length seq List.filter].
  rewrite <- seq_shift, filter_map_S.
  change (succeeded_at (ph :: phs) 0) with (is_succeeded ph).
  assert (Hrest : map (path_at (o :: outs))
                    (map S (List.filter (fun j => succeeded_at (ph :: phs) (S j))
                              (seq 0 (length phs))))
                  = map (path_at outs) (List.filter (succeeded_at phs) (seq 0 (length phs)))).
  { rewrite map_map. reflexivity. }
  destruct (is_succeeded ph); cbn [map app]; now rewrite Hrest.
Qed.

(** Dropping the empty slots leaves the outputs of the successful tasks, in
    the order of the slots. *)
Lemma valid_output_files_slots (phs : list TaskPhase) (outs : list string) :
  length phs = length outs ->
  (forall i, succeeded_at phs i = true -> string_empty (path_at outs i) = false) ->
  valid_output_files (zip_with slot_of phs outs) = outputs_of_successful phs outs.
Proof.
  revert outs. induction phs as [| ph phs IH]; intros outs Hlen Hne.
  - reflexivity.
  - destruct outs as [| o outs]; [discriminate |].
    rewrite outputs_of_successful_cons. cbn [zip_with].
    unfold valid_output_files in *. cbn [List.filter].
    rewrite IH.
    + unfold slot_of. destruct (is_succeeded ph) eqn:Hs.
      * specialize (Hne 0%nat). cbn in Hne.
        change (path_at (o :: outs) 0) with o in Hne.
        destruct ph; try discriminate. now rewrite (Hne eq_refl).
      * reflexivity.
    + cbn [length] in Hlen. lia.
    + intros i Hi. exact (Hne (S i) Hi).
Qed.

Lemma outputs_of_successful_length (phs : list TaskPhase) (outs : list string) :
  length (outputs_of_successful phs outs) = count_phase is_succeeded phs.
Proof.
  revert outs. unfold outputs_of_successful, count_phase.
  intros outs. rewrite length_map.
  induction phs as [| ph phs IH] using rev_ind; [done |].
  rewrite length_app, Nat.add_1_r, seq_S, !List.filter_app, !length_app.
  cbn [List.filter Nat.add].
  assert (Hpre : List.filter (succeeded_at (phs ++ [ph])) (seq 0 (length phs))
                 = List.filter (succeeded_at phs) (seq 0 (length phs))).
  { apply List.filter_ext_in. intros j Hj. apply in_seq in Hj.
    unfold succeeded_at. rewrite lookup_app_l by lia. reflexivity. }
  rewrite Hpre, IH. f_equal.
  unfold succeeded_at. rewrite list_lookup_middle by reflexivity.
  destruct ph; reflexivity.
Qed.

(** ** The invariant of the parallel loop *)

Lemma counter_events_snoc (i : nat) (tr : list Event) (e : Event) :
  counter_events i (tr ++ [e])
  = counter_events i tr ++ (if counter_event_of i e then [e] else []).
Proof. unfold counter_events. now rewrite List.filter_app. Qed.

Lemma succeeded_at_insert_ne (phs : list TaskPhase) (i j : nat) y :
  i <> j -> succeeded_at (<[i := y]> phs) j = succeeded_at phs j.
Proof. intros H. unfold succeeded_at. now rewrite list_lookup_insert_ne. Qed.

Section LoopInvariant.

Variable World : Type.
Variable imread : World -> string -> ReadResult.
Variable imwrite : World -> string -> Mat -> WriteResult * World.
Variable ts : TaskSet.

(** [cv::imwrite] chooses its encoder by the extension of the file name, and
    throws when it finds none: it never reports success for the empty
    name. *)
Hypothesis imwrite_needs_name :
  forall w img, (imwrite w EmptyString img).1 <> WriteTrue.

(** The number of tasks is an [int]. *)
Hypothesis tasks_fit : Z.of_nat (length (ts_output_paths ts)) <= INT_MAX.

Implicit Types (st : LoopState World) (i : nat).

Lemma loop_inv_init (w : World) :
  loop_inv ts (loop_init w (Z.of_nat (length (ts_output_paths ts)))).
Proof.
  unfold loop_inv, loop_init. cbn [phases output_files processed errors trace].
  rewrite Nat2Z.id.
  set (n := length (ts_output_paths ts)).
  assert (Hcount : forall f, f Pending = false ->
            count_phase f (replicate n Pending) = 0%nat).
  { intros f Hf. unfold count_phase. induction n as [| k IH]; [done |].
    cbn [replicate List.filter]. now rewrite Hf. }
  split; [apply length_replicate |].
  split.
  { subst n. generalize (ts_output_paths ts). intros outs.
    induction outs as [| o outs IH]; [done |].
    cbn [length replicate zip_with]. now rewrite <- IH. }
  rewrite !Hcount by reflexivity.
  do 2 (split; [reflexivity |]).
  split.
  - intros i. unfold succeeded_at.
    destruct (replicate n Pending !! i) as [ph |] eqn:E; [| discriminate].
    apply lookup_replicate in E as [-> _]. discriminate.
  - intros i. cbn.
    destruct (replicate n Pending !! i) as [ph |] eqn:E; [| reflexivity].
    apply lookup_replicate in E as [-> _]. reflexivity.
Qed.

(** Recording a call of OpenCV changes nothing the invariant speaks of. *)
Lemma loop_inv_io st (w : World) e :
  is_io_event e = true -> loop_inv ts st ->
  loop_inv ts (mkLoop w (trace st ++ [e]) (processed st) (errors st)
                 (output_files st) (phases st)).
Proof.
  intros He (H1 & H2 & H3 & H4 & H5 & H6).
  unfold loop_inv. cbn [phases output_files processed errors trace].
  do 5 (split; [assumption |]).
  intros i. rewrite counter_events_snoc, H6.
  destruct e; try discriminate; cbn [counter_event_of]; apply app_nil_r.
Qed.

(** A task that has not finished ends on the error branch. *)
Lemma loop_inv_count_error st i x :
  phases st !! i = Some x -> is_finished x = false ->
  loop_inv ts st -> loop_inv ts (count_error st i).
Proof.
  intros Hi Hx (H1 & H2 & H3 & H4 & H5 & H6).
  assert (Hs : is_succeeded x = false) by (destruct x; done).
  assert (Hf : is_failed x = false) by (destruct x; done).
  pose proof (count_phase_insert is_succeeded _ i x Failed Hi) as Cs.
  pose proof (count_phase_insert is_failed _ i x Failed Hi) as Cf.
  rewrite Hs in Cs. rewrite Hf in Cf. cbn [is_succeeded is_failed Nat.b2n] in Cs, Cf.
  pose proof (count_phase_ends (<[i := Failed]> (phases st))) as Hends.
  rewrite length_insert in Hends.
  unfold loop_inv, count_error. cbn [phases output_files processed errors trace].
  split; [now rewrite length_insert |].
  split; [now rewrite (zip_with_slot_insert _ _ i x Failed) |].
  split; [lia |].
  split.
  { unfold int_add. rewrite to_int_id by (unfold INT_MAX in *; lia). lia. }
  split.
  - intros j Hj. destruct (decide (i = j)) as [<- | Hne].
    + unfold succeeded_at in Hj.
      rewrite list_lookup_insert_eq in Hj by (eapply lookup_lt_Some; eauto).
      discriminate.
    + rewrite succeeded_at_insert_ne in Hj by done. now apply H5.
  - intros j. rewrite counter_events_snoc, H6. cbn [counter_event_of].
    destruct (decide (i = j)) as [<- | Hne].
    + rewrite Nat.eqb_refl, Hi.
      rewrite list_lookup_insert_eq by (eapply lookup_lt_Some; eauto).
      destruct x; done.
    + rewrite list_lookup_insert_ne by done.
      replace (j =? i)%nat with false by (symmetry; apply Nat.eqb_neq; congruence).
      apply app_nil_r.
Qed.

(** A pending task that loads goes on to the write. *)
Lemma loop_inv_loaded st i rgba :
  phases st !! i = Some Pending ->
  loop_inv ts st ->
  loop_inv ts (mkLoop (world st) (trace st) (processed st) (errors st) (output_files st)
                 (<[i := Loaded rgba]> (phases st))).
Proof.
  intros Hi (H1 & H2 & H3 & H4 & H5 & H6).
  pose proof (count_phase_insert is_succeeded _ i Pending (Loaded rgba) Hi) as Cs.
  pose proof (count_phase_insert is_failed _ i Pending (Loaded rgba) Hi) as Cf.
  cbn [is_succeeded is_failed Nat.b2n] in Cs, Cf.
  unfold loop_inv. cbn [phases output_files processed errors trace].
  split; [now rewrite length_insert |].
  split; [now rewrite (zip_with_slot_insert _ _ i Pending (Loaded rgba)) |].
  do 2 (split; [lia |]).
  split.
  - intros j Hj. destruct (decide (i = j)) as [<- | Hne].
    + unfold succeeded_at in Hj.
      rewrite list_lookup_insert_eq in Hj by (eapply lookup_lt_Some; eauto).
      discriminate.
    + rewrite succeeded_at_insert_ne in Hj by done. now apply H5.
  - intros j. rewrite H6. destruct (decide (i = j)) as [<- | Hne].
    + rewrite Hi. now rewrite list_lookup_insert_eq by (eapply lookup_lt_Some; eauto).
    + now rewrite list_lookup_insert_ne by done.
Qed.

(** A loaded task whose write succeeds fills its slot. *)
Lemma loop_inv_success st i rgba :
  phases st !! i = Some (Loaded rgba) ->
  string_empty (path_at (ts_output_paths ts) i) = false ->
  loop_inv ts st ->
  loop_inv ts (mkLoop (world st) (trace st ++ [EvProcessed i]) (int_add (processed st) 1)
                 (errors st) (<[i := path_at (ts_output_paths ts) i]> (output_files st))
                 (<[i := Succeeded]> (phases st))).
Proof.
  intros Hi Hname (H1 & H2 & H3 & H4 & H5 & H6).
  pose proof (lookup_lt_Some _ _ _ Hi) as Hlt.
  pose proof (count_phase_insert is_succeeded _ i _ Succeeded Hi) as Cs.
  pose proof (count_phase_insert is_failed _ i _ Succeeded Hi) as Cf.
  cbn [is_succeeded is_failed Nat.b2n] in Cs, Cf.
  pose proof (count_phase_ends (<[i := Succeeded]> (phases st))) as Hends.
  rewrite length_insert in Hends.
  unfold loop_inv. cbn [phases output_files processed errors trace].
  split; [now rewrite length_insert |].
  split; [now rewrite zip_with_slot_success, H2 |].
  split.
  { unfold int_add. rewrite to_int_id by (unfold INT_MAX in *; lia). lia. }
  split; [lia |].
  split.
  - intros j Hj. destruct (decide (i = j)) as [<- | Hne]; [done |].
    rewrite succeeded_at_insert_ne in Hj by done. now apply H5.
  - intros j. rewrite counter_events_snoc, H6. cbn [counter_event_of].
    destruct (decide (i = j)) as [<- | Hne].
    + rewrite Nat.eqb_refl, Hi. now rewrite list_lookup_insert_eq.
    + rewrite list_lookup_insert_ne by done.
      replace (j =? i)%nat with false by (symmetry; apply Nat.eqb_neq; congruence).
      apply app_nil_r.
Qed.

(** Every step of a worker keeps the invariant. *)
Lemma loop_inv_step st i : loop_inv ts st -> loop_inv ts (task_step imread imwrite ts st i).
Proof.
  intros Hinv. unfold task_step.
  destruct (phases st !! i) as [[| rgba | |] |] eqn:Hi; try assumption.
  - unfold load_phase.
    set (st1 := mkLoop (world st) (trace st ++ [EvRead (path_at (ts_image_paths ts) i)])
                  (processed st) (errors st) (output_files st) (phases st)).
    assert (Hinv1 : loop_inv ts st1) by now apply loop_inv_io.
    assert (Herr : loop_inv ts (count_error st1 i))
      by now apply (loop_inv_count_error st1 i Pending).
    destruct (imread (world st1) (path_at (ts_image_paths ts) i)) as [image | e]; [| done].
    destruct (Mat_empty image); [done |].
    destruct (negb (rows image =? ts_height ts) || negb (cols image =? ts_width ts)); [done |].
    now apply (loop_inv_loaded st1).
  - unfold write_phase.
    destruct (imwrite (world st) (path_at (ts_output_paths ts) i) rgba) as [r w] eqn:Hw.
    set (st1 := mkLoop w (trace st ++ [EvWrite (path_at (ts_output_paths ts) i) rgba])
                  (processed st) (errors st) (output_files st) (phases st)).
    assert (Hinv1 : loop_inv ts st1) by now apply loop_inv_io.
    assert (Herr : loop_inv ts (count_error st1 i))
      by now apply (loop_inv_count_error st1 i (Loaded rgba)).
    destruct r as [| | e]; try done.
    apply (loop_inv_success st1 i rgba); try done.
    destruct (path_at (ts_output_paths ts) i) eqn:Hpath; [| done].
    exfalso. apply (imwrite_needs_name (world st) rgba). now rewrite Hw.
Qed.

Lemma loop_inv_steps (sched : list nat) st :
  loop_inv ts st -> loop_inv ts (foldl (task_step imread imwrite ts) st sched).
Proof.
  revert st. induction sched as [| i sched IH]; intros st Hinv; [done |].
  cbn [foldl]. apply IH. now apply loop_inv_step.
Qed.

Lemma loop_inv_bodies (l : list nat) st :
  loop_inv ts st -> loop_inv ts (foldl (task_body imread imwrite ts) st l).
Proof.
  revert st. induction l as [| i l IH]; intros st Hinv; [done |].
  cbn [foldl]. apply IH. unfold task_body. now do 2 apply loop_inv_step.
Qed.

(** *** Every task runs to its end *)

Lemma load_phase_phases st i :
  exists ph, (ph = Failed \/ exists rgba, ph = Loaded rgba) /\
    phases (load_phase imread ts st i) = <[i := ph]> (phases st).
Proof.
  unfold load_phase. cbn [world].
  destruct (imread (world st) (path_at (ts_image_paths ts) i)) as [image | e];
    [| exists Failed; eauto].
  destruct (Mat_empty image); [exists Failed; eauto |].
  destruct (negb (rows image =? ts_height ts) || negb (cols image =? ts_width ts));
    [exists Failed; eauto |].
  eexists. split; [right; eauto | reflexivity].
Qed.

Lemma write_phase_phases st i rgba :
  exists ph, is_finished ph = true /\
    phases (write_phase imwrite ts st i rgba) = <[i := ph]> (phases st).
Proof.
  unfold write_phase.
  destruct (imwrite (world st) (path_at (ts_output_paths ts) i) rgba) as [[| | e] w];
    [exists Succeeded | exists Failed | exists Failed]; split; reflexivity.
Qed.

Lemma task_step_phases st i :
  phases (task_step imread imwrite ts st i) = phases st \/
  exists ph, phases st !! i <> None /\
    phases (task_step imread imwrite ts st i) = <[i := ph]> (phases st).
Proof.
  unfold task_step. destruct (phases st !! i) as [[| rgba | |] |] eqn:Hi; auto.
  - destruct (load_phase_phases st i) as (ph & _ & ->). right. eauto.
  - destruct (write_phase_phases st i rgba) as (ph & _ & ->). right. eauto.
Qed.

Lemma task_step_length st i :
  length (phases (task_step imread imwrite ts st i)) = length (phases st).
Proof.
  destruct (task_step_phases st i) as [-> | (ph & _ & ->)]; [done |].
  apply length_insert.
Qed.

(** A finished task stays as it is, whatever step comes. *)
Lemma task_step_finished st i j ph :
  phases st !! j = Some ph -> is_finished ph = true ->
  phases (task_step imread imwrite ts st i) !! j = Some ph.
Proof.
  intros Hj Hfin. destruct (decide (i = j)) as [-> | Hne].
  - unfold task_step. rewrite Hj. destruct ph; done.
  - destruct (task_step_phases st i) as [-> | (ph' & _ & ->)]; [done |].
    now rewrite list_lookup_insert_ne.
Qed.

(** Two steps take a task to its end. *)
Lemma task_body_finishes st i :
  (i < length (phases st))%nat ->
  exists ph, phases (task_body imread imwrite ts st i) !! i = Some ph /\
             is_finished ph = true.
Proof.
  intros Hlt. unfold task_body.
  destruct (lookup_lt_is_Some_2 _ _ Hlt) as [ph0 Hi].
  destruct ph0 as [| rgba | |].
  - unfold task_step at 2. rewrite Hi.
    destruct (load_phase_phases st i) as (ph & Hph & Hstep).
    assert (Hi1 : phases (load_phase imread ts st i) !! i = Some ph).
    { rewrite Hstep. now apply list_lookup_insert_eq. }
    destruct Hph as [-> | [rgba ->]].
    + exists Failed. split; [| done]. now apply task_step_finished.
    + unfold task_step. rewrite Hi1.
      destruct (write_phase_phases (load_phase imread ts st i) i rgba)
        as (ph & Hfin & ->).
      exists ph. split; [| done].
      apply list_lookup_insert_eq. rewrite Hstep, length_insert. lia.
  - unfold task_step at 2. rewrite Hi.
    destruct (write_phase_phases st i rgba) as (ph & Hfin & Hstep).
    exists ph. split; [| done]. apply task_step_finished; [| done].
    rewrite Hstep. now apply list_lookup_insert_eq.
  - exists Succeeded. split; [| done].
    apply task_step_finished; [now apply task_step_finished | done].
  - exists Failed. split; [| done].
    apply task_step_finished; [now apply task_step_finished | done].
Qed.

Lemma task_bodies_length (l : list nat) st :
  length (phases (foldl (task_body imread imwrite ts) st l)) = length (phases st).
Proof.
  revert st. induction l as [| i l IH]; intros st; [done |].
  cbn [foldl]. rewrite IH. unfold task_body. now rewrite !task_step_length.
Qed.

Lemma task_bodies_finished_stay (l : list nat) st j ph :
  phases st !! j = Some ph -> is_finished ph = true ->
  phases (foldl (task_body imread imwrite ts) st l) !! j = Some ph.
Proof.
  revert st. induction l as [| i l IH]; intros st Hj Hfin; [done |].
  cbn [foldl]. apply IH; [| done]. unfold task_body.
  apply task_step_finished; [now apply task_step_finished | done].
Qed.

Lemma task_bodies_finish (l : list nat) st j :
  j ∈ l -> (j < length (phases st))%nat ->
  exists ph, phases (foldl (task_body imread imwrite ts) st l) !! j = Some ph /\
             is_finished ph = true.
Proof.
  revert st. induction l as [| i l IH]; intros st Hj Hlt; [by apply elem_of_nil in Hj |].
  cbn [foldl]. apply elem_of_cons in Hj as [-> | Hj].
  - destruct (task_body_finishes st i Hlt) as (ph & Hph & Hfin).
    exists ph. split; [| done]. now apply task_bodies_finished_stay.
  - apply IH; [done |]. unfold task_body. now rewrite !task_step_length.
Qed.

Lemma task_steps_length (sched : list nat) st :
  length (phases (foldl (task_step imread imwrite ts) st sched)) = length (phases st).
Proof.
  revert st. induction sched as [| i sched IH]; intros st; [done |].
  cbn [foldl]. now rewrite IH, task_step_length.
Qed.

(** When the loop has ended, every task has. *)
Lemma parallel_for_finished st (sched : list nat) :
  Forall (fun ph => is_finished ph = true)
    (phases (parallel_for imread imwrite ts st sched (Z.of_nat (length (phases st))))).
Proof.
  unfold parallel_for. rewrite Nat2Z.id.
  set (st1 := foldl (task_step imread imwrite ts) st sched).
  assert (Hlen : length (phases st1) = length (phases st)) by apply task_steps_length.
  rewrite <- Hlen. apply Forall_lookup. intros j ph Hj.
  pose proof (lookup_lt_Some _ _ _ Hj) as Hlt. rewrite task_bodies_length in Hlt.
  destruct (task_bodies_finish (seq 0 (length (phases st1))) st1 j) as (ph' & Hph & Hfin).
  - apply elem_of_seq. lia.
  - done.
  - congruence.
Qed.

Lemma parallel_for_inv st (sched : list nat) (n : Z) :
  loop_inv ts st -> loop_inv ts (parallel_for imread imwrite ts st sched n).
Proof. intros Hinv. unfold parallel_for. now apply loop_inv_bodies, loop_inv_steps. Qed.

End LoopInvariant.

(** ** Schedules that leave nothing to do *)

Section Schedules.

Variable World : Type.
Variable imread : World -> string -> ReadResult.
Variable imwrite : World -> string -> Mat -> WriteResult * World.
Variable ts : TaskSet.

Implicit Types (st : LoopState World) (i : nat).

(** A step on a finished task, or on no task, is no step. *)
Lemma task_step_idle st i :
  (forall ph, phases st !! i = Some ph -> is_finished ph = true) ->
  task_step imread imwrite ts st i = st.
Proof.
  intros Hfin. unfold task_step.
  destruct (phases st !! i) as [[| rgba | |] |] eqn:Hi; try reflexivity.
  - specialize (Hfin _ eq_refl). discriminate.
  - specialize (Hfin _ eq_refl). discriminate.
Qed.

(** When the schedule has taken every task to its end, the end of the loop
    adds nothing: the state after the schedule is the state of the join. *)
Lemma parallel_for_complete st (sched : list nat) (n : Z) :
  Forall (fun ph => is_finished ph = true)
    (phases (foldl (task_step imread imwrite ts) st sched)) ->
  parallel_for imread imwrite ts st sched n = foldl (task_step imread imwrite ts) st sched.
Proof.
  unfold parallel_for.
  generalize (foldl (task_step imread imwrite ts) st sched). intros st1 Hfin.
  induction (seq 0 (Z.to_nat n)) as [| i l IH]; [reflexivity |].
  cbn [foldl]. unfold task_body.
  assert (Hidle : task_step imread imwrite ts st1 i = st1).
  { apply task_step_idle. intros ph Hph.
    exact (proj1 (Forall_lookup _ _) Hfin i ph Hph). }
  now rewrite !Hidle.
Qed.

End Schedules.

(** ** Why a task ends as it does *)

Section Causes.

Variable World : Type.
Variable imread : World -> string -> ReadResult.
Variable imwrite : World -> string -> Mat -> WriteResult * World.
Variable ts : TaskSet.

Implicit Types (st : LoopState World) (i : nat).

(** The load phase, by [load_ok]. *)
Lemma load_phase_fail st i :
  load_ok imread ts (world st) i = false ->
  load_phase imread ts st i =
  count_error (mkLoop (world st) (trace st ++ [EvRead (path_at (ts_image_paths ts) i)])
                 (processed st) (errors st) (output_files st) (phases st)) i.
Proof.
  unfold load_ok, load_phase. cbn [world].
  destruct (imread (world st) (path_at (ts_image_paths ts) i)) as [image | e]; [| done].
  destruct (Mat_empty image); [done |].
  destruct (rows image =? ts_height ts), (cols image =? ts_width ts); done.
Qed.

Lemma load_phase_ok st i :
  load_ok imread ts (world st) i = true ->
  exists rgba,
    load_phase imread ts st i =
    mkLoop (world st) (trace st ++ [EvRead (path_at (ts_image_paths ts) i)])
      (processed st) (errors st) (output_files st) (<[i := Loaded rgba]> (phases st)).
Proof.
  unfold load_ok, load_phase. cbn [world].
  destruct (imread (world st) (path_at (ts_image_paths ts) i)) as [image | e]; [| done].
  destruct (Mat_empty image); [done |].
  destruct (rows image =? ts_height ts), (cols image =? ts_width ts); try done.
  eauto.
Qed.

(** The write phase, by [write_ok]. *)
Lemma write_phase_fail st i rgba :
  write_ok imwrite ts (world st) i rgba = false ->
  write_phase imwrite ts st i rgba =
  count_error (mkLoop (imwrite (world st) (path_at (ts_output_paths ts) i) rgba).2
                 (trace st ++ [EvWrite (path_at (ts_output_paths ts) i) rgba])
                 (processed st) (errors st) (output_files st) (phases st)) i.
Proof.
  unfold write_ok, write_phase.
  destruct (imwrite (world st) (path_at (ts_output_paths ts) i) rgba) as [[| | e] w]; done.
Qed.

Lemma write_phase_ok st i rgba :
  write_ok imwrite ts (world st) i rgba = true ->
  phases (write_phase imwrite ts st i rgba) = <[i := Succeeded]> (phases st).
Proof.
  unfold write_ok, write_phase.
  destruct (imwrite (world st) (path_at (ts_output_paths ts) i) rgba) as [[| | e] w]; done.
Qed.

Lemma phases_justified_insert st i ph :
  phases_justified imread imwrite ts st ->
  match ph with
  | Failed =>
      (exists w, load_ok imread ts w i = false) \/
      (exists w rgba, write_ok imwrite ts w i rgba = false)
  | Succeeded =>
      (exists w, load_ok imread ts w i = true) /\
      (exists w rgba, write_ok imwrite ts w i rgba = true)
  | Loaded _ => exists w, load_ok imread ts w i = true
  | Pending => True
  end ->
  forall st', phases st' = <[i := ph]> (phases st) ->
  phases_justified imread imwrite ts st'.
Proof.
  intros Hj Hph st' Hst' j. rewrite Hst'.
  destruct (decide (i = j)) as [<- | Hne].
  - destruct (decide (i < length (phases st))%nat) as [Hlt | Hge].
    + rewrite list_lookup_insert_eq by done. destruct ph; done.
    + rewrite list_insert_ge by lia. apply Hj.
  - rewrite list_lookup_insert_ne by done. apply Hj.
Qed.

Lemma phases_justified_step st i :
  phases_justified imread imwrite ts st ->
  phases_justified imread imwrite ts (task_step imread imwrite ts st i).
Proof.
  intros Hj. unfold task_step.
  destruct (phases st !! i) as [[| rgba | |] |] eqn:Hi; try assumption.
  - destruct (load_ok imread ts (world st) i) eqn:Hok.
    + destruct (load_phase_ok st i Hok) as [rgba Hstep].
      eapply (phases_justified_insert st i (Loaded rgba)); eauto.
      now rewrite Hstep.
    + eapply (phases_justified_insert st i Failed); eauto.
      now rewrite load_phase_fail.
  - pose proof (Hj i) as Hload. rewrite Hi in Hload.
    destruct (write_ok imwrite ts (world st) i rgba) eqn:Hok.
    + eapply (phases_justified_insert st i Succeeded); eauto using write_phase_ok.
    + eapply (phases_justified_insert st i Failed); eauto.
      now rewrite write_phase_fail.
Qed.

Lemma phases_justified_init (w : World) (n : Z) :
  phases_justified imread imwrite ts (loop_init w n).
Proof.
  intros i. unfold loop_init. cbn [phases].
  destruct (replicate (Z.to_nat n) Pending !! i) as [ph |] eqn:E; [| done].
  apply lookup_replicate in E as [-> _]. done.
Qed.

Lemma phases_justified_parallel_for st (sched : list nat) (n : Z) :
  phases_justified imread imwrite ts st ->
  phases_justified imread imwrite ts (parallel_for imread imwrite ts st sched n).
Proof.
  intros Hj. unfold parallel_for.
  assert (Hsteps : forall l st0, phases_justified imread imwrite ts st0 ->
            phases_justified imread imwrite ts (foldl (task_step imread imwrite ts) st0 l)).
  { induction l as [| i l IH]; intros st0 H0; [done |].
    cbn [foldl]. now apply IH, phases_justified_step. }
  assert (Hbodies : forall l st0, phases_justified imread imwrite ts st0 ->
            phases_justified imread imwrite ts (foldl (task_body imread imwrite ts) st0 l)).
  { induction l as [| i l IH]; intros st0 H0; [done |].
    cbn [foldl]. apply IH. unfold task_body. now do 2 apply phases_justified_step. }
  now apply Hbodies, Hsteps.
Qed.

End Causes.

(** ** The checks before the loop *)

Lemma num_images_of_fit (image_paths : list string) :
  Z.of_nat (length image_paths) <= INT_MAX ->
  num_images_of image_paths = Z.of_nat (length image_paths).
Proof. intros H. unfold num_images_of. apply to_int_id. lia. Qed.

(** The checks of the source pass exactly on the preconditions. *)
Lemma preflight_spec (image_paths : list string) (masks_array : PyArray)
    (output_paths : list string) :
  Z.of_nat (length image_paths) <= INT_MAX ->
  (preflight image_paths masks_array output_paths = None <->
   batch_preconditions image_paths masks_array output_paths) /\
  (preflight image_paths masks_array output_paths <> None ->
   exists what, preflight image_paths masks_array output_paths
                = Some (invalid_argument what)).
Proof.
  intros Hfit. unfold preflight, batch_preconditions.
  rewrite (num_images_of_fit _ Hfit).
  assert (Hsz : to_size_t (Z.of_nat (length image_paths)) = Z.of_nat (length image_paths)).
  { apply to_size_t_id. unfold INT_MAX in Hfit. lia. }
  rewrite Hsz.
  destruct (Z.eqb_spec (Z.of_nat (length image_paths)) 0) as [H0 | H0].
  { split; [split; [discriminate | lia] | eauto]. }
  destruct (Z.eqb_spec (Z.of_nat (length image_paths)) (Z.of_nat (length output_paths)))
    as [H1 | H1]; cbn [negb].
  2: { split; [split; [discriminate | lia] | eauto]. }
  destruct (Z.eqb_spec (ndim masks_array) 3) as [H2 | H2]; cbn [negb orb].
  2: { split; [split; [discriminate | tauto] | eauto]. }
  destruct (Z.eqb_spec (shape_at masks_array 0) (Z.of_nat (length image_paths)))
    as [H3 | H3]; cbn [negb].
  2: { split; [split; [discriminate | tauto] | eauto]. }
  split; [| done]. split; [| done]. intros _. repeat split; try done; lia.
Qed.

(** ** The fields of the report *)

Section ReportFields.

Variables (p e : Z) (files : list string) (duration_us h w mt : Z).

Lemma results_processed :
  build_results p e files duration_us h w mt !! "processed" = Some (PyInt p).
Proof. unfold build_results. by simplify_map_eq. Qed.

Lemma results_errors :
  build_results p e files duration_us h w mt !! "errors" = Some (PyInt e).
Proof. unfold build_results. by simplify_map_eq. Qed.

Lemma results_output_files :
  build_results p e files duration_us h w mt !! "output_files"
  = Some (PyStrList (valid_output_files files)).
Proof. unfold build_results. by simplify_map_eq. Qed.

Lemma results_uploaded :
  build_results p e files duration_us h w mt !! "uploaded" = Some (PyInt 0).
Proof. unfold build_results. by simplify_map_eq. Qed.

Lemma results_threads_used :
  build_results p e files duration_us h w mt !! "threads_used" = Some (PyInt mt).
Proof. unfold build_results. by simplify_map_eq. Qed.

Lemma results_processing_time_ms :
  build_results p e files duration_us h w mt !! "processing_time_ms"
  = Some (PyFloat (processing_time_ms_of duration_us)).
Proof. unfold build_results. by simplify_map_eq. Qed.

Lemma results_avg_time :
  build_results p e files duration_us h w mt !! "avg_time_per_image_ms"
  = Some (PyFloat (avg_time_per_image_ms_of (processing_time_ms_of duration_us) p)).
Proof. unfold build_results. by simplify_map_eq. Qed.

Lemma results_throughput :
  build_results p e files duration_us h w mt !! "throughput_mpix_per_sec"
  = Some (PyFloat (mpixels_per_sec_of (processing_time_ms_of duration_us) p h w)).
Proof. unfold build_results. by simplify_map_eq. Qed.

Lemma results_dom :
  dom (build_results p e files duration_us h w mt) = code_report_fields.
Proof.
  unfold build_results, code_report_fields, spec_report_fields.
  rewrite !dom_insert_L, dom_empty_L. set_solver.
Qed.

End ReportFields.

(** ** The batch call *)

Section Batch.

Variable World : Type.
Variable imread : World -> string -> ReadResult.
Variable imwrite : World -> string -> Mat -> WriteResult * World.

(** [cv::imwrite] never reports success for the empty file name (it finds
    no encoder for it). *)
Hypothesis imwrite_needs_name :
  forall w img, (imwrite w EmptyString img).1 <> WriteTrue.

Implicit Types (w : World) (sched : list nat) (image_paths output_paths : list string).

(** A call that passes the checks returns the report built from the state
    at the end of the loop. *)
Lemma batch_returns w hc duration_us sched image_paths masks_array output_paths :
  Z.of_nat (length image_paths) <= INT_MAX ->
  batch_preconditions image_paths masks_array output_paths ->
  batch_create_rgba_optimized imread imwrite w hc duration_us sched
    image_paths masks_array output_paths
  = (Returns
       (build_results
          (processed (batch_loop imread imwrite w sched image_paths masks_array output_paths))
          (errors (batch_loop imread imwrite w sched image_paths masks_array output_paths))
          (output_files (batch_loop imread imwrite w sched image_paths masks_array output_paths))
          duration_us (to_int (shape_at masks_array 1)) (to_int (shape_at masks_array 2))
          (max_threads_of hc)),
     world (batch_loop imread imwrite w sched image_paths masks_array output_paths),
     trace (batch_loop imread imwrite w sched image_paths masks_array output_paths)).
Proof.
  intros Hfit Hpre. unfold batch_create_rgba_optimized.
  destruct (preflight_spec image_paths masks_array output_paths Hfit) as [[_ Hnone] _].
  now rewrite (Hnone Hpre).
Qed.

(** The state at the end of the loop of a call that passes the checks. *)
Lemma batch_loop_facts w sched image_paths masks_array output_paths :
  Z.of_nat (length image_paths) <= INT_MAX ->
  batch_preconditions image_paths masks_array output_paths ->
  loop_inv (tasks_of image_paths masks_array output_paths)
    (batch_loop imread imwrite w sched image_paths masks_array output_paths) /\
  phases_justified imread imwrite (tasks_of image_paths masks_array output_paths)
    (batch_loop imread imwrite w sched image_paths masks_array output_paths) /\
  Forall (fun ph => is_finished ph = true)
    (phases (batch_loop imread imwrite w sched image_paths masks_array output_paths)) /\
  length (phases (batch_loop imread imwrite w sched image_paths masks_array output_paths))
  = length image_paths.
Proof.
  intros Hfit (Hpos & Hlen & _ & _).
  set (ts := tasks_of image_paths masks_array output_paths).
  assert (Hout : output_paths = ts_output_paths ts) by reflexivity.
  unfold batch_loop. rewrite (num_images_of_fit _ Hfit). fold ts.
  assert (Hinit : loop_inv ts (loop_init w (Z.of_nat (length image_paths)))).
  { rewrite <- Hlen, Hout. apply loop_inv_init. }
  assert (Hphases : length (phases (loop_init w (Z.of_nat (length image_paths))))
                    = length image_paths).
  { unfold loop_init. cbn [phases]. now rewrite length_replicate, Nat2Z.id. }
  split.
  { apply parallel_for_inv; [done | | done]. rewrite <- Hout. lia. }
  split; [apply phases_justified_parallel_for, phases_justified_init |].
  pose proof (parallel_for_finished World imread imwrite ts
                (loop_init w (Z.of_nat (length image_paths))) sched) as Hfin.
  rewrite Hphases in Hfin.
  split; [exact Hfin |].
  destruct (parallel_for_inv World imread imwrite ts imwrite_needs_name
              ltac:(rewrite <- Hout; lia) _ sched (Z.of_nat (length image_paths)) Hinit)
    as (H1 & _).
  rewrite H1. now rewrite <- Hout.
Qed.

(** C2. For every batch call that passes the checks before the loop (at
    least one task, as many output paths, a three-dimensional mask volume
    with one plane per task), whatever the schedule: the call returns a
    report, processed + errors is the number of tasks, output_files has
    processed entries, and every task made exactly one increment, of
    processed when it succeeded and of errors when it failed. *)
Theorem batch_counters_balance w hc duration_us sched image_paths masks_array
    output_paths :
  Z.of_nat (length image_paths) <= INT_MAX ->
  batch_preconditions image_paths masks_array output_paths ->
  exists report files st,
    st = batch_loop imread imwrite w sched image_paths masks_array output_paths /\
    batch_create_rgba_optimized imread imwrite w hc duration_us sched
      image_paths masks_array output_paths = (Returns report, world st, trace st) /\
    report !! "processed" = Some (PyInt (processed st)) /\
    report !! "errors" = Some (PyInt (errors st)) /\
    report !! "output_files" = Some (PyStrList files) /\
    processed st + errors st = Z.of_nat (length image_paths) /\
    Z.of_nat (length files) = processed st /\
    processed st = Z.of_nat (count_phase is_succeeded (phases st)) /\
    errors st = Z.of_nat (count_phase is_failed (phases st)) /\
    forall i, (i < length image_paths)%nat ->
      (phases st !! i = Some Succeeded /\ counter_events i (trace st) = [EvProcessed i]) \/
      (phases st !! i = Some Failed /\ counter_events i (trace st) = [EvError i]).
Proof.
  intros Hfit Hpre.
  destruct (batch_loop_facts w sched image_paths masks_array output_paths Hfit Hpre)
    as ((H1 & H2 & H3 & H4 & H5 & H6) & _ & Hfin & Hlen).
  set (st := batch_loop imread imwrite w sched image_paths masks_array output_paths) in *.
  cbn [ts_output_paths tasks_of] in H1, H2, H5.
  eexists _, (valid_output_files (output_files st)), st.
  split; [reflexivity |].
  split; [now apply batch_returns |].
  split; [apply results_processed |].
  split; [apply results_errors |].
  split; [apply results_output_files |].
  pose proof (count_phase_all_finished _ Hfin) as Hall.
  split; [lia |].
  split.
  { rewrite H2, valid_output_files_slots, outputs_of_successful_length by done. lia. }
  do 2 (split; [done |]).
  intros i Hi. specialize (H6 i).
  destruct (lookup_lt_is_Some_2 (phases st) i) as [ph Hph]; [lia |].
  rewrite Hph in H6.
  pose proof (proj1 (Forall_lookup _ _) Hfin i ph Hph) as Hph_fin.
  destruct ph; try discriminate; auto.
Qed.

(** C4. If the input path list is empty, or its length differs from that
    of the output path list, or the mask volume is not three-dimensional
    with one plane per input path, the call throws [std::invalid_argument]
    before the loop: the world is as it was, no call of OpenCV and no
    increment has happened, and there is no report. *)
Theorem batch_preflight_raises w hc duration_us sched image_paths masks_array
    output_paths :
  Z.of_nat (length image_paths) <= INT_MAX ->
  image_paths = [] \/ length image_paths <> length output_paths \/
  ndim masks_array <> 3 \/ shape_at masks_array 0 <> Z.of_nat (length image_paths) ->
  exists what,
    batch_create_rgba_optimized imread imwrite w hc duration_us sched
      image_paths masks_array output_paths
    = (Throws (invalid_argument what), w, []).
Proof.
  intros Hfit Hbad. unfold batch_create_rgba_optimized.
  destruct (preflight_spec image_paths masks_array output_paths Hfit) as [[Hpre _] Hexn].
  destruct (preflight image_paths masks_array output_paths) as [e |] eqn:E.
  - destruct Hexn as [what Hwhat]; [done |]. injection Hwhat as ->. eauto.
  - exfalso. destruct (Hpre eq_refl) as (Hpos & Hlen & Hnd & Hsh).
    destruct Hbad as [-> | [Hb | [Hb | Hb]]]; [cbn in Hpos; lia | | |]; congruence.
Qed.

Lemma outputs_of_successful_ext (phs phs' : list TaskPhase) (outs : list string) :
  length phs' = length phs ->
  (forall i, succeeded_at phs' i = succeeded_at phs i) ->
  outputs_of_successful phs' outs = outputs_of_successful phs outs.
Proof.
  intros Hlen Hext. unfold outputs_of_successful. rewrite Hlen.
  f_equal. apply List.filter_ext. exact Hext.
Qed.

(** *** Failures stay with their task *)

(** The slot of a task that has not succeeded is empty. *)
Lemma slot_unsuccessful (ts : TaskSet) (st : LoopState World) (i : nat) ph :
  loop_inv ts st -> phases st !! i = Some ph -> is_succeeded ph = false ->
  output_files st !! i = Some EmptyString.
Proof.
  intros (H1 & H2 & _) Hph Hs.
  destruct (lookup_lt_is_Some_2 (ts_output_paths ts) i) as [o Ho].
  { rewrite <- H1. eapply lookup_lt_Some; eauto. }
  rewrite H2, lookup_zip_with, Hph, Ho. cbn. unfold slot_of. now rewrite Hs.
Qed.

(** The error counter does not wrap while a task is still running. *)
Lemma errors_room (ts : TaskSet) (st : LoopState World) (i : nat) ph :
  Z.of_nat (length (ts_output_paths ts)) <= INT_MAX ->
  loop_inv ts st -> phases st !! i = Some ph -> is_finished ph = false ->
  int_add (errors st) 1 = errors st + 1.
Proof.
  intros Hfit (H1 & _ & _ & H4 & _) Hph Hfin.
  pose proof (count_phase_insert is_failed _ i ph Failed Hph) as Cf.
  replace (is_failed ph) with false in Cf by (destruct ph; done).
  cbn [is_failed Nat.b2n] in Cf.
  pose proof (count_phase_le is_failed (<[i := Failed]> (phases st))) as Hle.
  rewrite length_insert in Hle.
  unfold int_add. apply to_int_id. unfold INT_MAX in *. lia.
Qed.

(** A step that fails: one more error, nothing else of the shared state
    moves but the phase of the task itself. *)
Lemma failing_step (ts : TaskSet) (st : LoopState World) (i : nat) :
  Z.of_nat (length (ts_output_paths ts)) <= INT_MAX ->
  loop_inv ts st ->
  (phases st !! i = Some Pending /\ load_ok imread ts (world st) i = false) \/
  (exists rgba, phases st !! i = Some (Loaded rgba) /\
                write_ok imwrite ts (world st) i rgba = false) ->
  errors (task_step imread imwrite ts st i) = errors st + 1 /\
  processed (task_step imread imwrite ts st i) = processed st /\
  output_files (task_step imread imwrite ts st i) = output_files st /\
  output_files (task_step imread imwrite ts st i) !! i = Some EmptyString /\
  phases (task_step imread imwrite ts st i) = <[i := Failed]> (phases st).
Proof.
  intros Hfit Hinv [[Hph Hfail] | (rgba & Hph & Hfail)]; unfold task_step; rewrite Hph.
  - rewrite load_phase_fail by done.
    cbn [count_error errors processed output_files phases].
    split; [now apply (errors_room ts st i Pending) |].
    do 2 (split; [done |]).
    split; [| done]. now apply (slot_unsuccessful ts st i Pending).
  - rewrite write_phase_fail by done.
    cbn [count_error errors processed output_files phases].
    split; [now apply (errors_room ts st i (Loaded rgba)) |].
    do 2 (split; [done |]).
    split; [| done]. now apply (slot_unsuccessful ts st i (Loaded rgba)).
Qed.

(** C5. A task whose image does not load, whose image has not the
    dimensions of the mask plane, or whose output cannot be written, adds
    exactly one to errors and leaves its slot empty, and the other tasks go
    on: (1) the step on which a task fails changes errors by one, and
    neither processed, nor any slot, nor the phase of another task; (2) at
    the end of every batch that passes the checks all tasks have finished,
    errors counts the failed ones, and each failed task has an empty slot,
    one increment of errors, and a failure of its own load or write as the
    cause; (3) with three tasks of which the first and the third load and
    write well and the second loads with other dimensions than the mask,
    the report has processed = 2, errors = 1, and output_files is the
    first and the third output path. *)
Theorem failed_task_isolated :
  (forall (ts : TaskSet) (st : LoopState World) (i : nat),
     Z.of_nat (length (ts_output_paths ts)) <= INT_MAX ->
     loop_inv ts st ->
     (phases st !! i = Some Pending /\ load_ok imread ts (world st) i = false) \/
     (exists rgba, phases st !! i = Some (Loaded rgba) /\
                   write_ok imwrite ts (world st) i rgba = false) ->
     errors (task_step imread imwrite ts st i) = errors st + 1 /\
     processed (task_step imread imwrite ts st i) = processed st /\
     output_files (task_step imread imwrite ts st i) = output_files st /\
     output_files (task_step imread imwrite ts st i) !! i = Some EmptyString /\
     phases (task_step imread imwrite ts st i) = <[i := Failed]> (phases st)) /\
  (forall w sched image_paths masks_array output_paths,
     Z.of_nat (length image_paths) <= INT_MAX ->
     batch_preconditions image_paths masks_array output_paths ->
     Forall (fun ph => is_finished ph = true)
       (phases (batch_loop imread imwrite w sched image_paths masks_array output_paths)) /\
     errors (batch_loop imread imwrite w sched image_paths masks_array output_paths)
     = Z.of_nat (count_phase is_failed
         (phases (batch_loop imread imwrite w sched image_paths masks_array output_paths))) /\
     forall i,
       phases (batch_loop imread imwrite w sched image_paths masks_array output_paths) !! i
       = Some Failed ->
       output_files (batch_loop imread imwrite w sched image_paths masks_array output_paths)
         !! i = Some EmptyString /\
       counter_events i
         (trace (batch_loop imread imwrite w sched image_paths masks_array output_paths))
       = [EvError i] /\
       ((exists w', load_ok imread (tasks_of image_paths masks_array output_paths) w' i
                    = false) \/
        (exists w' rgba,
           write_ok imwrite (tasks_of image_paths masks_array output_paths) w' i rgba
           = false))) /\
  (forall w hc duration_us sched p1 p2 p3 o1 o2 o3 masks_array,
     batch_preconditions [p1; p2; p3] masks_array [o1; o2; o3] ->
     (forall w', load_ok imread (tasks_of [p1; p2; p3] masks_array [o1; o2; o3]) w' 0 = true) ->
     (forall w' rgba,
        write_ok imwrite (tasks_of [p1; p2; p3] masks_array [o1; o2; o3]) w' 0 rgba = true) ->
     (forall w', exists image,
        imread w' p2 = ReadMat image /\ Mat_empty image = false /\
        (rows image <> to_int (shape_at masks_array 1) \/
         cols image <> to_int (shape_at masks_array 2))) ->
     (forall w', load_ok imread (tasks_of [p1; p2; p3] masks_array [o1; o2; o3]) w' 2 = true) ->
     (forall w' rgba,
        write_ok imwrite (tasks_of [p1; p2; p3] masks_array [o1; o2; o3]) w' 2 rgba = true) ->
     exists report w' tr,
       batch_create_rgba_optimized imread imwrite w hc duration_us sched
         [p1; p2; p3] masks_array [o1; o2; o3] = (Returns report, w', tr) /\
       report !! "processed" = Some (PyInt 2) /\
       report !! "errors" = Some (PyInt 1) /\
       report !! "output_files" = Some (PyStrList [o1; o3])).
Proof.
  split; [exact failing_step |].
  split.
  - intros w sched image_paths masks_array output_paths Hfit Hpre.
    destruct (batch_loop_facts w sched image_paths masks_array output_paths Hfit Hpre)
      as (Hinv & Hjust & Hfin & Hlen).
    split; [done |].
    split; [apply Hinv |].
    intros i Hi.
    split; [now apply (slot_unsuccessful _ _ i Failed Hinv) |].
    destruct Hinv as (_ & _ & _ & _ & _ & H6).
    specialize (H6 i). specialize (Hjust i). rewrite Hi in H6, Hjust. done.
  - intros w hc duration_us sched p1 p2 p3 o1 o2 o3 masks_array Hpre
      Hl0 Hw0 Hl1 Hl2 Hw2.
    assert (Hfit : Z.of_nat (length [p1; p2; p3]) <= INT_MAX) by (cbn; unfold INT_MAX; lia).
    destruct (batch_loop_facts w sched _ masks_array _ Hfit Hpre)
      as (Hinv & Hjust & Hfin & Hlen).
    set (ts := tasks_of [p1; p2; p3] masks_array [o1; o2; o3]) in *.
    assert (Hbad : forall w', load_ok imread ts w' 1 = false).
    { intros w'. destruct (Hl1 w') as (image & Hread & Hne & Hdim).
      unfold load_ok. change (path_at (ts_image_paths ts) 1) with p2.
      rewrite Hread, Hne. cbn [negb andb ts_height ts_width ts tasks_of].
      destruct Hdim as [Hd | Hd]; apply Z.eqb_neq in Hd; rewrite Hd;
        [done | apply andb_false_r]. }
    set (st := batch_loop imread imwrite w sched [p1; p2; p3] masks_array [o1; o2; o3]) in *.
    destruct (phases st) as [| a [| b [| c [| d rest]]]] eqn:Hphs; try discriminate.
    pose proof (Hjust 0%nat) as J0. pose proof (Hjust 1%nat) as J1.
    pose proof (Hjust 2%nat) as J2. rewrite Hphs in J0, J1, J2. cbn in J0, J1, J2.
    apply Forall_cons in Hfin as [Fa Hfin]. apply Forall_cons in Hfin as [Fb Hfin].
    apply Forall_cons in Hfin as [Fc _].
    assert (a = Succeeded) as ->.
    { destruct a; try discriminate; [done |].
      destruct J0 as [[w' E] | (w' & rgba & E)]; [rewrite Hl0 in E | rewrite Hw0 in E];
        discriminate. }
    assert (c = Succeeded) as ->.
    { destruct c; try discriminate; [done |].
      destruct J2 as [[w' E] | (w' & rgba & E)]; [rewrite Hl2 in E | rewrite Hw2 in E];
        discriminate. }
    assert (b = Failed) as ->.
    { destruct b; try discriminate; [| done].
      destruct J1 as [[w' E] _]. rewrite Hbad in E. discriminate. }
    destruct Hinv as (_ & H2 & H3 & H4 & H5 & _). rewrite Hphs in H2, H3, H4, H5.
    pose proof (H5 0%nat eq_refl) as N0. pose proof (H5 2%nat eq_refl) as N2.
    change (path_at (ts_output_paths ts) 0) with o1 in N0.
    change (path_at (ts_output_paths ts) 2) with o3 in N2.
    eexists _, _, _. split; [now apply batch_returns |]. fold st.
    rewrite results_processed, results_errors, results_output_files, H2, H3, H4.
    do 2 (split; [done |]).
    cbn [ts tasks_of ts_output_paths zip_with slot_of is_succeeded].
    unfold valid_output_files. cbn [List.filter]. rewrite N0, N2. done.
Qed.
End Batch.

(** ** The report *)

Section Report.

Variable World : Type.
Variable imread : World -> string -> ReadResult.
Variable imwrite : World -> string -> Mat -> WriteResult * World.

Implicit Types (w : World) (sched : list nat) (image_paths output_paths : list string).

(** Whatever a call returns is the dictionary [build_results] fills. *)
Lemma batch_report_built w hc duration_us sched image_paths masks_array output_paths
    report w' tr :
  batch_create_rgba_optimized imread imwrite w hc duration_us sched
    image_paths masks_array output_paths = (Returns report, w', tr) ->
  report =
  build_results
    (processed (batch_loop imread imwrite w sched image_paths masks_array output_paths))
    (errors (batch_loop imread imwrite w sched image_paths masks_array output_paths))
    (output_files (batch_loop imread imwrite w sched image_paths masks_array output_paths))
    duration_us (to_int (shape_at masks_array 1)) (to_int (shape_at masks_array 2))
    (max_threads_of hc).
Proof.
  unfold batch_create_rgba_optimized.
  destruct (preflight image_paths masks_array output_paths); [discriminate |].
  intros H. injection H as <- _ _. reflexivity.
Qed.

(** C3, as the source has it. The report a batch call returns has exactly
    eight fields: the seven the specification names (processed, errors,
    output_files, processing_time_ms, avg_time_per_image_ms,
    throughput_mpix_per_sec, threads_used) and one more, uploaded, whose
    value is always 0. *)
Theorem report_field_set w hc duration_us sched image_paths masks_array output_paths
    report w' tr :
  batch_create_rgba_optimized imread imwrite w hc duration_us sched
    image_paths masks_array output_paths = (Returns report, w', tr) ->
  dom report = spec_report_fields ∪ {[ "uploaded" ]} /\
  ("uploaded" ∉ spec_report_fields) /\
  report !! "uploaded" = Some (PyInt 0).
Proof.
  intros Hcall. rewrite (batch_report_built _ _ _ _ _ _ _ _ _ _ Hcall).
  split; [apply results_dom |].
  split; [| apply results_uploaded].
  unfold spec_report_fields.
  rewrite !not_elem_of_union, !not_elem_of_singleton. repeat split; discriminate.
Qed.

(** C9. The worker count is the smaller of the cap 4 and the hardware
    parallelism, and the report gives that number as threads_used. *)
Theorem batch_threads_used w hc duration_us sched image_paths masks_array output_paths
    report w' tr :
  0 <= hc <= INT_MAX ->
  batch_create_rgba_optimized imread imwrite w hc duration_us sched
    image_paths masks_array output_paths = (Returns report, w', tr) ->
  max_threads_of hc = Z.min 4 hc /\
  report !! "threads_used" = Some (PyInt (Z.min 4 hc)).
Proof.
  intros Hhc Hcall.
  assert (Hmin : max_threads_of hc = Z.min 4 hc).
  { unfold max_threads_of. rewrite to_int_id; [done | lia]. }
  split; [done |].
  rewrite (batch_report_built _ _ _ _ _ _ _ _ _ _ Hcall), results_threads_used.
  now rewrite Hmin.
Qed.

(** The two timing fields of a report, as the source computes them. *)
Lemma batch_report_metrics w hc duration_us sched image_paths masks_array output_paths
    report w' tr :
  batch_create_rgba_optimized imread imwrite w hc duration_us sched
    image_paths masks_array output_paths = (Returns report, w', tr) ->
  report !! "throughput_mpix_per_sec"
  = Some (PyFloat
      (mpixels_per_sec_of (processing_time_ms_of duration_us)
         (processed (batch_loop imread imwrite w sched image_paths masks_array output_paths))
         (to_int (shape_at masks_array 1)) (to_int (shape_at masks_array 2)))) /\
  report !! "avg_time_per_image_ms"
  = Some (PyFloat
      (avg_time_per_image_ms_of (processing_time_ms_of duration_us)
         (processed (batch_loop imread imwrite w sched image_paths masks_array output_paths)))).
Proof.
  intros Hcall. rewrite (batch_report_built _ _ _ _ _ _ _ _ _ _ Hcall).
  split; [apply results_throughput | apply results_avg_time].
Qed.

End Report.

(** The pixel count of the throughput is the product it stands for as long
    as that product is an [int]. *)
Lemma total_pixels_of_fit (processed height width : Z) :
  0 <= processed -> 0 <= height -> 0 <= width ->
  processed * height * width <= INT_MAX ->
  total_pixels_of processed height width = processed * height * width.
Proof.
  intros Hp Hh Hw Hfit. unfold total_pixels_of, int_mul.
  destruct (Z.eq_dec width 0) as [-> | Hw0].
  { rewrite !Z.mul_0_r. reflexivity. }
  assert (processed * height <= processed * height * width) by nia.
  rewrite (to_int_id (processed * height)) by (unfold INT_MAX in *; lia).
  apply to_int_id. unfold INT_MAX in *. lia.
Qed.

(** A zero pixel count over a positive time is a zero throughput. *)
Lemma zero_div_positive (y : float) :
  PrimFloat.ltb 0 y = true -> (0 / y)%float = 0%float.
Proof.
  intros Hy. apply Prim2SF_inj.
  rewrite div_spec. rewrite ltb_spec in Hy.
  change (Prim2SF 0) with (S754_zero false) in *.
  destruct (Prim2SF y) as [s | s | | s m e]; try discriminate.
  - destruct s; [discriminate | reflexivity].
  - destruct s; [discriminate | reflexivity].
Qed.

(** With no processed image and a positive elapsed time the throughput is
    zero, whatever the dimensions. *)
Lemma throughput_zero_when_none_processed (processing_time_ms : float) (height width : Z) :
  PrimFloat.ltb 0 (processing_time_ms / 1000) = true ->
  mpixels_per_sec_of processing_time_ms 0 height width = 0%float.
Proof.
  intros Hpos. unfold mpixels_per_sec_of.
  assert (Hnone : (double_of_int (total_pixels_of 0 height width) / 1e6)%float = 0%float)
    by reflexivity.
  rewrite Hnone. now apply zero_div_positive.
Qed.

(** The average is the elapsed time over the processed images, and 0 with
    none. *)
Lemma avg_time_rule (processing_time_ms : float) (processed : Z) :
  (0 < processed ->
   avg_time_per_image_ms_of processing_time_ms processed
   = (processing_time_ms / double_of_int processed)%float) /\
  (processed <= 0 -> avg_time_per_image_ms_of processing_time_ms processed = 0%float).
Proof.
  unfold avg_time_per_image_ms_of. split; intros H.
  - now replace (0 <? processed) with true by lia.
  - now replace (0 <? processed) with false by lia.
Qed.

(** C8, where the source leaves it. With 400 processed images of 2142 x
    2856 pixels the [int] product [processed * height * width] passes
    [INT_MAX]: the pixel count the source divides is -1847946496 and not
    2447020800, and the throughput it reports for three seconds of work is
    negative. *)
Theorem throughput_overflows :
  400 * 2856 * 2142 = 2447020800 /\
  total_pixels_of 400 2856 2142 = -1847946496 /\
  (forall errors files max_threads,
     build_results 400 errors files 3000000 2856 2142 max_threads
       !! "throughput_mpix_per_sec"
     = Some (PyFloat
         (mpixels_per_sec_of (processing_time_ms_of 3000000) 400 2856 2142))) /\
  PrimFloat.ltb (mpixels_per_sec_of (processing_time_ms_of 3000000) 400 2856 2142) 0
  = true.
Proof.
  split; [reflexivity |].
  split; [vm_compute; reflexivity |].
  split; [intros; apply results_throughput |].
  vm_compute. reflexivity.
Qed.

(** ** The single-image path against the batch worker *)

(** The two pixel loops read the mask only at the pixels they visit. *)
Lemma pixel_loops_agree (rgb mask1 mask2 : list Z) (l : list Z) : forall buf : list Z,
  (forall p, p ∈ l -> load mask1 p = load mask2 p) ->
  foldl (single_pixel_body rgb mask1) buf l = foldl (pixel_body rgb mask2) buf l.
Proof.
  induction l as [| p l IH]; intros buf Hmask; [done |].
  cbn [foldl].
  assert (Hp : single_pixel_body rgb mask1 buf p = pixel_body rgb mask2 buf p).
  { unfold single_pixel_body, pixel_body. rewrite (Hmask p) by left. reflexivity. }
  rewrite Hp. apply IH. intros q Hq. apply Hmask. now right.
Qed.

Lemma to_int_le (z : Z) : 0 <= z -> to_int z <= z.
Proof.
  intros Hz. unfold to_int.
  pose proof (Z.mod_le (z + 2 ^ 31) (2 ^ 32)). lia.
Qed.

(** The shape of a well-formed volume. *)
Lemma mask_volume_shape (masks_array : PyArray) :
  mask_volume_wf masks_array ->
  exists n h w,
    shape masks_array = [n; h; w] /\ 0 <= n /\ 0 <= h <= INT_MAX /\ 0 <= w <= INT_MAX /\
    n * h * w < 2 ^ 63.
Proof.
  intros ((Hall & _ & Hprod) & Hnd & Hh & Hw).
  unfold ndim in Hnd. unfold shape_at in Hh, Hw.
  destruct (shape masks_array) as [| n [| h [| w [| x rest]]]]; cbn in Hnd; try lia.
  cbn in Hh, Hw. exists n, h, w.
  apply Forall_cons in Hall as [Hn Hall]. apply Forall_cons in Hall as [Hh0 Hall].
  apply Forall_cons in Hall as [Hw0 _].
  cbn [shape_product foldr] in Hprod.
  repeat split; try lia.
Qed.

(** On the mask of its task, the single-image path composites the very
    image the batch worker composites. *)
Lemma single_composite_batch (image : Mat) (masks_array : PyArray) (i : nat) :
  mask_volume_wf masks_array ->
  Z.of_nat i < shape_at masks_array 0 -> Z.of_nat i <= INT_MAX ->
  single_composite image (buf_data (mask_plane masks_array i))
    (to_int (shape_at (mask_plane masks_array i) 0))
    (to_int (shape_at (mask_plane masks_array i) 1))
  = batch_composite image (buf_data masks_array) (Z.of_nat i)
      (to_int (shape_at masks_array 1)) (to_int (shape_at masks_array 2)).
Proof.
  intros Hwf Hi Hfit.
  destruct (mask_volume_shape masks_array Hwf) as (n & h & w & Hshape & Hn & Hh & Hw & Hprod).
  unfold shape_at in *. unfold mask_plane, shape_at. rewrite Hshape in *.
  cbn [lookup list_lookup default shape buf_data] in *. unfold id in *.
  rewrite (to_int_id h), (to_int_id w) by (unfold INT_MAX in *; lia).
  unfold single_composite, batch_composite. f_equal.
  apply pixel_loops_agree. intros p Hp. apply elem_of_seqZ in Hp.
  assert (Hhw : 0 <= h * w) by nia.
  pose proof (to_int_le (h * w) Hhw) as Hle. unfold int_mul in Hp.
  assert (Hoff : size_mul (size_mul (to_size_t (Z.of_nat i)) (to_size_t h)) (to_size_t w)
                 = Z.of_nat i * h * w).
  { assert (0 <= Z.of_nat i * h <= n * h) by nia.
    assert (0 <= Z.of_nat i * h * w <= n * h * w) by nia.
    assert (Z.of_nat i * h <= 2 ^ 31 * 2 ^ 31).
    { unfold INT_MAX in *. apply Z.mul_le_mono_nonneg; lia. }
    unfold size_mul.
    rewrite (to_size_t_id (Z.of_nat i)), (to_size_t_id h), (to_size_t_id w)
      by (unfold INT_MAX in *; lia).
    rewrite (to_size_t_id (Z.of_nat i * h)) by lia.
    apply to_size_t_id. lia. }
  rewrite Hoff. unfold load, ptr_add.
  destruct (p <? 0) eqn:E; [done |].
  rewrite lookup_take_lt by lia.
  rewrite !lookup_drop. do 2 f_equal. nia.
Qed.

Section Single.

Variable World : Type.
Variable imread : World -> string -> ReadResult.
Variable imwrite : World -> string -> Mat -> WriteResult * World.

Lemma std_exception_caught (e : Exn) : is_std_exception e = true.
Proof. destruct e; reflexivity. Qed.

(** Once a task is on the error branch, a further step leaves the state. *)
Lemma task_step_failed (ts : TaskSet) (st : LoopState World) (i : nat) :
  (i < length (phases st))%nat ->
  task_step imread imwrite ts (count_error st i) i = count_error st i.
Proof.
  intros Hlt. unfold task_step. cbn [count_error phases].
  now rewrite list_lookup_insert_eq.
Qed.

(** C7. On the image, the mask and the output path of a task, the
    single-image path does what one iteration of the batch worker does: it
    makes the same calls of OpenCV in the same order, with a byte-identical
    RGBA image for the writer, and leaves the same world; it returns [true]
    exactly when the iteration ends on the success branch, and [false], with
    no exception, whenever the iteration counts an error (image not loaded,
    dimensions other than the mask's, write failed). *)
Theorem single_refines_batch_task (image_paths output_paths : list string)
    (masks_array : PyArray) (st : LoopState World) (i : nat) :
  mask_volume_wf masks_array ->
  Z.of_nat i < shape_at masks_array 0 -> Z.of_nat i <= INT_MAX ->
  phases st !! i = Some Pending ->
  exists (b : bool) (events : list Event),
    create_rgba_single imread imwrite (world st) (path_at image_paths i)
      (mask_plane masks_array i) (path_at output_paths i)
    = (Returns b,
       world (task_body imread imwrite (tasks_of image_paths masks_array output_paths) st i),
       events) /\
    trace (task_body imread imwrite (tasks_of image_paths masks_array output_paths) st i)
    = trace st ++ events ++ [if b then EvProcessed i else EvError i] /\
    phases (task_body imread imwrite (tasks_of image_paths masks_array output_paths) st i)
    = <[i := if b then Succeeded else Failed]> (phases st) /\
    errors (task_body imread imwrite (tasks_of image_paths masks_array output_paths) st i)
    = (if b then errors st else int_add (errors st) 1) /\
    forall image,
      single_composite image (buf_data (mask_plane masks_array i))
        (to_int (shape_at (mask_plane masks_array i) 0))
        (to_int (shape_at (mask_plane masks_array i) 1))
      = batch_composite image (buf_data masks_array) (Z.of_nat i)
          (to_int (shape_at masks_array 1)) (to_int (shape_at masks_array 2)).
Proof.
  intros Hwf Hi Hfit Hph.
  pose proof (lookup_lt_Some _ _ _ Hph) as Hlt.
  set (ts := tasks_of image_paths masks_array output_paths).
  assert (Hsame : forall image,
            single_composite image (buf_data (mask_plane masks_array i))
              (ts_height ts) (ts_width ts)
            = batch_composite image (ts_masks_data ts) (Z.of_nat i)
                (ts_height ts) (ts_width ts)).
  { intros image. exact (single_composite_batch image masks_array i Hwf Hi Hfit). }
  assert (Hnd : (ndim (mask_plane masks_array i) =? 2) = true) by reflexivity.
  change (to_int (shape_at (mask_plane masks_array i) 0)) with (ts_height ts).
  change (to_int (shape_at (mask_plane masks_array i) 1)) with (ts_width ts).
  change (to_int (shape_at masks_array 1)) with (ts_height ts).
  change (to_int (shape_at masks_array 2)) with (ts_width ts).
  change (buf_data masks_array) with (ts_masks_data ts).
  assert (Hbody : task_body imread imwrite ts st i
                  = task_step imread imwrite ts (load_phase imread ts st i) i).
  { unfold task_body. unfold task_step at 2. now rewrite Hph. }
  rewrite Hbody. clear Hbody.
  unfold create_rgba_single, create_rgba_single_try, load_phase.
  change (path_at (ts_image_paths ts) i) with (path_at image_paths i).
  change (to_int (shape_at (mask_plane masks_array i) 0)) with (ts_height ts).
  change (to_int (shape_at (mask_plane masks_array i) 1)) with (ts_width ts).
  cbn [world].
  destruct (imread (world st) (path_at image_paths i)) as [image | e].
  2: { rewrite std_exception_caught, !task_step_failed by done.
       exists false, [EvRead (path_at image_paths i)].
       cbn [count_error world trace phases errors]. now rewrite <- app_assoc. }
  destruct (Mat_empty image).
  { rewrite !task_step_failed by done.
    exists false, [EvRead (path_at image_paths i)].
    cbn [count_error world trace phases errors]. now rewrite <- app_assoc. }
  rewrite Hnd. cbn [negb].
  destruct (negb (rows image =? ts_height ts) || negb (cols image =? ts_width ts)).
  { rewrite !task_step_failed by done.
    exists false, [EvRead (path_at image_paths i)].
    cbn [count_error world trace phases errors]. now rewrite <- app_assoc. }
  rewrite Hsame.
  set (rgba := batch_composite image (ts_masks_data ts) (Z.of_nat i)
                 (ts_height ts) (ts_width ts)).
  unfold task_step. cbn [phases].
  rewrite list_lookup_insert_eq by done.
  unfold write_phase. cbn [world]. change (path_at (ts_output_paths ts) i)
    with (path_at output_paths i).
  destruct (imwrite (world st) (path_at output_paths i) rgba) as [[| | e] w'].
  - exists true, [EvRead (path_at image_paths i); EvWrite (path_at output_paths i) rgba].
    cbn [world trace phases errors]. rewrite list_insert_insert_eq, <- !app_assoc. done.
  - exists false, [EvRead (path_at image_paths i); EvWrite (path_at output_paths i) rgba].
    cbn [count_error world trace phases errors].
    rewrite list_insert_insert_eq, <- !app_assoc. done.
  - rewrite std_exception_caught.
    exists false, [EvRead (path_at image_paths i); EvWrite (path_at output_paths i) rgba].
    cbn [count_error world trace phases errors].
    rewrite list_insert_insert_eq, <- !app_assoc. done.
Qed.

(** C10. Given a mask whose rank is not 2, the single-image path returns
    [false] and lets no exception out: when the image has loaded, the
    [std::invalid_argument] its check throws is caught by its own handler
    (and when the image has not loaded, it has returned [false] already);
    nothing is written. *)
Theorem single_rejects_bad_rank (w : World) (image_path output_path : string)
    (mask : PyArray) :
  ndim mask <> 2 ->
  create_rgba_single imread imwrite w image_path mask output_path
  = (Returns false, w, [EvRead image_path]) /\
  forall image,
    imread w image_path = ReadMat image -> Mat_empty image = false ->
    create_rgba_single_try imread imwrite w image_path mask output_path
    = (Throws (invalid_argument "Mask must be 2D array"), w, [EvRead image_path]).
Proof.
  intros Hnd. apply Z.eqb_neq in Hnd.
  unfold create_rgba_single, create_rgba_single_try.
  destruct (imread w image_path) as [image | e].
  - destruct (Mat_empty image) eqn:Hempty.
    + split; [reflexivity |]. intros image' Himg Hne.
      injection Himg as <-. congruence.
    + rewrite Hnd. cbn [negb is_std_exception].
      split; [reflexivity |]. intros image' _ _. reflexivity.
  - rewrite std_exception_caught. split; [reflexivity | discriminate].
Qed.

End Single.

(** ** The world as the replay of the trace *)

Lemma read_paths_snoc (tr : list Event) (e : Event) :
  read_paths (tr ++ [e])
  = read_paths tr ++ match e with EvRead path => [path] | _ => [] end.
Proof. unfold read_paths. rewrite omap_app. destruct e; reflexivity. Qed.

Lemma written_paths_snoc (tr : list Event) (e : Event) :
  written_paths (tr ++ [e])
  = written_paths tr ++ match e with EvWrite path _ => [path] | _ => [] end.
Proof. unfold written_paths. rewrite omap_app. destruct e; reflexivity. Qed.

Lemma read_paths_app (a b : list Event) : read_paths (a ++ b) = read_paths a ++ read_paths b.
Proof. unfold read_paths. apply omap_app. Qed.

Lemma written_paths_app (a b : list Event) :
  written_paths (a ++ b) = written_paths a ++ written_paths b.
Proof. unfold written_paths. apply omap_app. Qed.

Section Footprint.

Variable World : Type.
Variable imread : World -> string -> ReadResult.
Variable imwrite : World -> string -> Mat -> WriteResult * World.
Variable ts : TaskSet.

Implicit Types (st : LoopState World) (i : nat).

Lemma replay_snoc (w : World) (tr : list Event) (e : Event) :
  replay imwrite w (tr ++ [e]) = replay_event imwrite (replay imwrite w tr) e.
Proof. unfold replay. now rewrite foldl_app. Qed.

(** A trace with no write leaves the world. *)
Lemma replay_no_write (w : World) (tr : list Event) :
  written_paths tr = [] -> replay imwrite w tr = w.
Proof.
  induction tr as [| e tr IH] using rev_ind; [done |].
  rewrite written_paths_snoc, replay_snoc. intros Hnone.
  apply app_eq_nil in Hnone as [Htr He].
  rewrite (IH Htr). destruct e; try reflexivity. discriminate.
Qed.

(** Every step keeps the world the replay of the trace. *)
Lemma replay_step (w0 : World) st i :
  world st = replay imwrite w0 (trace st) ->
  world (task_step imread imwrite ts st i)
  = replay imwrite w0 (trace (task_step imread imwrite ts st i)).
Proof.
  intros Hw. unfold task_step.
  destruct (phases st !! i) as [[| rgba | |] |]; try assumption.
  - unfold load_phase. cbn [world trace].
    destruct (imread (world st) (path_at (ts_image_paths ts) i)) as [image | e].
    + destruct (Mat_empty image);
        [| destruct (negb (rows image =? ts_height ts) || negb (cols image =? ts_width ts))];
        cbn [count_error world trace]; rewrite ?replay_snoc; exact Hw.
    + cbn [count_error world trace]. rewrite !replay_snoc. exact Hw.
  - unfold write_phase.
    destruct (imwrite (world st) (path_at (ts_output_paths ts) i) rgba) as [r w] eqn:Hcall.
    assert (Hnext : w = replay imwrite w0
                          (trace st ++ [EvWrite (path_at (ts_output_paths ts) i) rgba])).
    { rewrite replay_snoc, <- Hw. cbn [replay_event]. now rewrite Hcall. }
    destruct r as [| | e]; cbn [count_error world trace]; rewrite replay_snoc; exact Hnext.
Qed.

Lemma replay_parallel_for (w0 : World) st (sched : list nat) (n : Z) :
  world st = replay imwrite w0 (trace st) ->
  world (parallel_for imread imwrite ts st sched n)
  = replay imwrite w0 (trace (parallel_for imread imwrite ts st sched n)).
Proof.
  intros Hw. unfold parallel_for.
  assert (Hsteps : forall l st0, world st0 = replay imwrite w0 (trace st0) ->
            world (foldl (task_step imread imwrite ts) st0 l)
            = replay imwrite w0 (trace (foldl (task_step imread imwrite ts) st0 l))).
  { induction l as [| j l IH]; intros st0 H0; [done |].
    cbn [foldl]. now apply IH, replay_step. }
  assert (Hbodies : forall l st0, world st0 = replay imwrite w0 (trace st0) ->
            world (foldl (task_body imread imwrite ts) st0 l)
            = replay imwrite w0 (trace (foldl (task_body imread imwrite ts) st0 l))).
  { induction l as [| j l IH]; intros st0 H0; [done |].
    cbn [foldl]. apply IH. unfold task_body. now do 2 apply replay_step. }
  now apply Hbodies, Hsteps.
Qed.

End Footprint.

(** ** The outcomes of the calls decide the phases *)

Section TracedOutcomes.

Variable World : Type.
Variable imread : World -> string -> ReadResult.
Variable imwrite : World -> string -> Mat -> WriteResult * World.
Variable ts : TaskSet.
Variable w0 : World.

Implicit Types (st : LoopState World) (i : nat) (tr more : list Event).

Lemma write_phase_succeeds st i rgba :
  write_ok imwrite ts (world st) i rgba = true ->
  write_phase imwrite ts st i rgba =
  mkLoop (imwrite (world st) (path_at (ts_output_paths ts) i) rgba).2
    ((trace st ++ [EvWrite (path_at (ts_output_paths ts) i) rgba]) ++ [EvProcessed i])
    (int_add (processed st) 1) (errors st)
    (<[i := path_at (ts_output_paths ts) i]> (output_files st))
    (<[i := Succeeded]> (phases st)).
Proof.
  unfold write_ok, write_phase.
  destruct (imwrite (world st) (path_at (ts_output_paths ts) i) rgba) as [[| | e] w]; done.
Qed.

(** What the trace holds of a task, it holds for good. *)
Lemma load_succeeded_app tr more i :
  load_succeeded imread imwrite ts w0 tr i ->
  load_succeeded imread imwrite ts w0 (tr ++ more) i.
Proof.
  intros (tr1 & tr2 & -> & Hok). exists tr1, (tr2 ++ more).
  split; [now rewrite <- app_assoc | exact Hok].
Qed.

Lemma load_failed_app tr more i :
  load_failed imread imwrite ts w0 tr i -> load_failed imread imwrite ts w0 (tr ++ more) i.
Proof.
  intros (tr1 & tr2 & -> & Hok). exists tr1, (tr2 ++ more).
  split; [now rewrite <- app_assoc | exact Hok].
Qed.

Lemma write_succeeded_app tr more i :
  write_succeeded imwrite ts w0 tr i -> write_succeeded imwrite ts w0 (tr ++ more) i.
Proof.
  intros (tr1 & tr2 & rgba & -> & Hok). exists tr1, (tr2 ++ more), rgba.
  split; [now rewrite <- app_assoc | exact Hok].
Qed.

Lemma write_failed_app tr more i :
  write_failed imwrite ts w0 tr i -> write_failed imwrite ts w0 (tr ++ more) i.
Proof.
  intros (tr1 & tr2 & rgba & -> & Hok). exists tr1, (tr2 ++ more), rgba.
  split; [now rewrite <- app_assoc | exact Hok].
Qed.

Lemma phase_traced_app tr more i ph :
  phase_traced imread imwrite ts w0 tr i ph ->
  phase_traced imread imwrite ts w0 (tr ++ more) i ph.
Proof.
  destruct ph as [| rgba | |]; cbn [phase_traced].
  - done.
  - apply load_succeeded_app.
  - intros [Hl Hw]. split; [now apply load_succeeded_app | now apply write_succeeded_app].
  - intros [Hl | [Hl Hw]].
    + left. now apply load_failed_app.
    + right. split; [now apply load_succeeded_app | now apply write_failed_app].
Qed.

(** A step that moves task [i] to the phase [ph] and adds [more] to the
    trace. *)
Lemma outcomes_traced_update st st' i ph more :
  outcomes_traced imread imwrite ts w0 st ->
  world st' = replay imwrite w0 (trace st') ->
  trace st' = trace st ++ more ->
  phases st' = <[i := ph]> (phases st) ->
  phase_traced imread imwrite ts w0 (trace st ++ more) i ph ->
  outcomes_traced imread imwrite ts w0 st'.
Proof.
  intros [_ Hph] Hw' Htr Hphs Hnew. split; [exact Hw' |].
  intros j pj. rewrite Hphs, Htr. intros Hj.
  apply list_lookup_insert_Some in Hj as [(<- & <- & _) | (_ & Hj)]; [exact Hnew |].
  apply phase_traced_app, Hph, Hj.
Qed.

Lemma outcomes_traced_step st i :
  outcomes_traced imread imwrite ts w0 st ->
  outcomes_traced imread imwrite ts w0 (task_step imread imwrite ts st i).
Proof.
  intros Hinv.
  pose proof (replay_step World imread imwrite ts w0 st i (proj1 Hinv)) as Hw'.
  pose proof (proj1 Hinv) as Hw.
  unfold task_step in *.
  destruct (phases st !! i) as [[| rgba | |] |] eqn:Hi; try assumption.
  - destruct (load_ok imread ts (world st) i) eqn:Hok.
    + destruct (load_phase_ok World imread ts st i Hok) as [rgba Hstep].
      rewrite Hstep in *.
      apply (outcomes_traced_update st _ i (Loaded rgba)
               [EvRead (path_at (ts_image_paths ts) i)]); try done.
      exists (trace st), []. split; [done |]. now rewrite <- Hw.
    + rewrite (load_phase_fail World imread ts st i Hok) in *.
      apply (outcomes_traced_update st _ i Failed
               [EvRead (path_at (ts_image_paths ts) i); EvError i]); try done.
      * cbn [count_error trace]. now rewrite <- app_assoc.
      * left. exists (trace st), []. split; [done |]. now rewrite <- Hw.
  - pose proof (proj2 Hinv i _ Hi) as Hload. cbn [phase_traced] in Hload.
    destruct (write_ok imwrite ts (world st) i rgba) eqn:Hok.
    + rewrite (write_phase_succeeds st i rgba Hok) in *.
      apply (outcomes_traced_update st _ i Succeeded
               [EvWrite (path_at (ts_output_paths ts) i) rgba; EvProcessed i]); try done.
      * cbn [trace]. now rewrite <- app_assoc.
      * split; [now apply load_succeeded_app |].
        exists (trace st), [], rgba. split; [done |]. now rewrite <- Hw.
    + rewrite (write_phase_fail World imwrite ts st i rgba Hok) in *.
      apply (outcomes_traced_update st _ i Failed
               [EvWrite (path_at (ts_output_paths ts) i) rgba; EvError i]); try done.
      * cbn [count_error trace]. now rewrite <- app_assoc.
      * right. split; [now apply load_succeeded_app |].
        exists (trace st), [], rgba. split; [done |]. now rewrite <- Hw.
Qed.

Lemma outcomes_traced_init (n : Z) :
  outcomes_traced imread imwrite ts w0 (loop_init w0 n).
Proof.
  split; [reflexivity |].
  intros i ph. unfold loop_init. cbn [phases trace]. intros E.
  apply lookup_replicate in E as [-> _]. exact I.
Qed.

Lemma outcomes_traced_parallel_for st (sched : list nat) (n : Z) :
  outcomes_traced imread imwrite ts w0 st ->
  outcomes_traced imread imwrite ts w0 (parallel_for imread imwrite ts st sched n).
Proof.
  intros Hinv. unfold parallel_for.
  assert (Hsteps : forall l st0, outcomes_traced imread imwrite ts w0 st0 ->
            outcomes_traced imread imwrite ts w0 (foldl (task_step imread imwrite ts) st0 l)).
  { induction l as [| j l IH]; intros st0 H0; [done |].
    cbn [foldl]. now apply IH, outcomes_traced_step. }
  assert (Hbodies : forall l st0, outcomes_traced imread imwrite ts w0 st0 ->
            outcomes_traced imread imwrite ts w0 (foldl (task_body imread imwrite ts) st0 l)).
  { induction l as [| j l IH]; intros st0 H0; [done |].
    cbn [foldl]. apply IH. unfold task_body. now do 2 apply outcomes_traced_step. }
  now apply Hbodies, Hsteps.
Qed.

(** When the outcomes are decided by the tasks, the successful tasks are
    the good ones. *)
Lemma decided_successes (n : nat) (good : nat -> bool) (phs : list TaskPhase) tr :
  outcomes_decided_by imread imwrite ts n good ->
  length phs = n ->
  Forall (fun ph => is_finished ph = true) phs ->
  (forall i ph, phs !! i = Some ph -> phase_traced imread imwrite ts w0 tr i ph) ->
  List.filter (succeeded_at phs) (seq 0 (length phs)) = List.filter good (seq 0 n).
Proof.
  intros Hgood Hlen Hfin Htraced. rewrite Hlen.
  apply List.filter_ext_in. intros i Hi. apply in_seq in Hi.
  destruct (lookup_lt_is_Some_2 phs i) as [ph Hph]; [lia |].
  pose proof (proj1 (Forall_lookup _ _) Hfin i ph Hph) as Hdone.
  specialize (Htraced i ph Hph). specialize (Hgood i ltac:(lia)).
  unfold succeeded_at. rewrite Hph.
  destruct ph as [| rgba | |]; try discriminate; cbn [phase_traced] in Htraced.
  - destruct (good i); [reflexivity | exfalso].
    destruct Htraced as [(tr1 & _ & _ & Hl) (tr1' & _ & rgba & _ & Hw)].
    destruct Hgood as [Hbad | Hbad]; [rewrite Hbad in Hl | rewrite Hbad in Hw]; discriminate.
  - destruct (good i); [exfalso | reflexivity].
    destruct Hgood as [Hl Hw].
    destruct Htraced as [(tr1 & _ & _ & Hbad) | [_ (tr1 & _ & rgba & _ & Hbad)]];
      [rewrite Hl in Hbad | rewrite Hw in Hbad]; discriminate.
Qed.

End TracedOutcomes.

(** ** The order of output_files *)

Section BatchOrder.

Variable World : Type.
Variable imread : World -> string -> ReadResult.
Variable imwrite : World -> string -> Mat -> WriteResult * World.

(** [cv::imwrite] never reports success for the empty file name. *)
Hypothesis imwrite_needs_name :
  forall w img, (imwrite w EmptyString img).1 <> WriteTrue.

Implicit Types (w : World) (sched : list nat) (image_paths output_paths : list string).

(** C6. For every batch call that passes the checks, whatever the order in
    which the workers advance and complete the tasks: output_files is the
    list of the caller's output paths at the indices of the successful
    tasks, by ascending index, and no entry is empty. The successful tasks
    are those whose calls of OpenCV went well: the trace of the call holds,
    for each successful task, the read of its image, which loaded with the
    dimensions of the mask in the world of that moment, and the write of
    its output, for which cv::imwrite returned true in the world of that
    moment; and for each other task it holds the read that did not load so,
    or the write that did not return true. When the outcome of the calls is
    decided by the task alone, output_files is therefore the output paths
    of the good tasks in input order, the same list for every schedule.
    Two schedules with the same successful tasks give the same list. *)
Theorem batch_output_order w hc duration_us sched image_paths masks_array output_paths :
  Z.of_nat (length image_paths) <= INT_MAX ->
  batch_preconditions image_paths masks_array output_paths ->
  exists report st,
    st = batch_loop imread imwrite w sched image_paths masks_array output_paths /\
    batch_create_rgba_optimized imread imwrite w hc duration_us sched
      image_paths masks_array output_paths = (Returns report, world st, trace st) /\
    length (phases st) = length image_paths /\
    report !! "output_files"
    = Some (PyStrList (outputs_of_successful (phases st) output_paths)) /\
    Forall (fun file => string_empty file = false)
      (outputs_of_successful (phases st) output_paths) /\
    (forall i, (i < length image_paths)%nat ->
       if succeeded_at (phases st) i
       then
         load_succeeded imread imwrite (tasks_of image_paths masks_array output_paths) w
           (trace st) i /\
         write_succeeded imwrite (tasks_of image_paths masks_array output_paths) w
           (trace st) i
       else
         load_failed imread imwrite (tasks_of image_paths masks_array output_paths) w
           (trace st) i \/
         (load_succeeded imread imwrite (tasks_of image_paths masks_array output_paths) w
            (trace st) i /\
          write_failed imwrite (tasks_of image_paths masks_array output_paths) w
            (trace st) i)) /\
    (forall good,
       outcomes_decided_by imread imwrite (tasks_of image_paths masks_array output_paths)
         (length image_paths) good ->
       report !! "output_files"
       = Some (PyStrList
           (map (path_at output_paths) (List.filter good (seq 0 (length image_paths)))))) /\
    forall sched',
      (forall i,
         succeeded_at
           (phases (batch_loop imread imwrite w sched' image_paths masks_array output_paths)) i
         = succeeded_at (phases st) i) ->
      exists report' w' tr',
        batch_create_rgba_optimized imread imwrite w hc duration_us sched'
          image_paths masks_array output_paths = (Returns report', w', tr') /\
        report' !! "output_files"
        = Some (PyStrList (outputs_of_successful (phases st) output_paths)).
Proof.
  intros Hfit Hpre.
  assert (Hfiles : forall s,
    valid_output_files
      (output_files (batch_loop imread imwrite w s image_paths masks_array output_paths))
    = outputs_of_successful
        (phases (batch_loop imread imwrite w s image_paths masks_array output_paths))
        output_paths).
  { intros s.
    destruct (batch_loop_facts World imread imwrite imwrite_needs_name w s image_paths
                masks_array output_paths Hfit Hpre)
      as ((H1 & H2 & _ & _ & H5 & _) & _).
    cbn [ts_output_paths tasks_of] in H1, H2, H5.
    rewrite H2. now apply valid_output_files_slots. }
  destruct (batch_loop_facts World imread imwrite imwrite_needs_name w sched image_paths
              masks_array output_paths Hfit Hpre) as (_ & _ & Hfin & Hlen).
  assert (Htraced :
    outcomes_traced imread imwrite (tasks_of image_paths masks_array output_paths) w
      (batch_loop imread imwrite w sched image_paths masks_array output_paths)).
  { unfold batch_loop. apply outcomes_traced_parallel_for, outcomes_traced_init. }
  destruct Htraced as [_ Htraced].
  eexists _, _. split; [reflexivity |].
  split; [now apply batch_returns |].
  split; [exact Hlen |].
  split; [rewrite results_output_files; now rewrite Hfiles |].
  split.
  { rewrite <- Hfiles. unfold valid_output_files. apply List.Forall_forall.
    intros file Hin. apply List.filter_In in Hin as [_ Hin].
    now destruct (string_empty file). }
  split.
  { intros i Hi.
    destruct (lookup_lt_is_Some_2
                (phases (batch_loop imread imwrite w sched image_paths masks_array
                           output_paths)) i) as [ph Hph]; [lia |].
    pose proof (proj1 (Forall_lookup _ _) Hfin i ph Hph) as Hdone.
    specialize (Htraced i ph Hph). unfold succeeded_at. rewrite Hph.
    destruct ph as [| rgba | |]; try discriminate; exact Htraced. }
  split.
  { intros good Hgood. rewrite results_output_files, Hfiles.
    unfold outputs_of_successful. do 3 f_equal.
    now apply (decided_successes World imread imwrite
                 (tasks_of image_paths masks_array output_paths) w (length image_paths) good
                 _ (trace (batch_loop imread imwrite w sched image_paths masks_array
                             output_paths))). }
  intros sched' Hsame. eexists _, _, _.
  split; [now apply batch_returns |].
  rewrite results_output_files, Hfiles. do 2 f_equal.
  apply outputs_of_successful_ext; [| exact Hsame].
  rewrite Hlen.
  now destruct (batch_loop_facts World imread imwrite imwrite_needs_name w sched' image_paths
                  masks_array output_paths Hfit Hpre) as (_ & _ & _ & ->).
Qed.

End BatchOrder.

(** * The properties on the example world *)

Lemma disk_imwrite_needs_name (locked : list string) :
  forall (w : gmap string Mat) (img : Mat),
    (disk_imwrite locked w EmptyString img).1 <> WriteTrue.
Proof. intros w img. cbn. discriminate. Qed.

Lemma demo_fit : Z.of_nat (length demo_image_paths) <= INT_MAX.
Proof. cbn. unfold INT_MAX. lia. Qed.

Lemma demo_preconditions : batch_preconditions demo_image_paths demo_masks demo_output_paths.
Proof. unfold batch_preconditions. cbn. repeat split; lia. Qed.

(** The first task of the example: its first pixel is the source's B, G, R
    read backwards, and opaque, since the mask byte there is 255. *)
Lemma batch_task_pixels_witness :
  exists rgba : Mat,
    phases (task_step (disk_imread demo_inputs) (disk_imwrite [])
              (tasks_of demo_image_paths demo_masks demo_output_paths)
              (loop_init ∅ 3) 0) !! 0%nat = Some (Loaded rgba) /\
    load (data rgba) 0 = 30 /\ load (data rgba) 1 = 20 /\ load (data rgba) 2 = 10 /\
    load (data rgba) 3 = 255.
Proof.
  destruct (batch_task_pixels (gmap string Mat) (disk_imread demo_inputs) (disk_imwrite [])
              (tasks_of demo_image_paths demo_masks demo_output_paths)
              (loop_init ∅ 3) 0 (mkMat 1 2 3 [10; 20; 30; 40; 50; 60]))
    as (rgba & Hph & _ & _ & _ & _ & _ & Hpix).
  - reflexivity.
  - reflexivity.
  - reflexivity.
  - unfold Mat_wf, INT_MAX. cbn. lia.
  - reflexivity.
  - reflexivity.
  - apply Z.leb_le. reflexivity.
  - unfold INT_MAX. lia.
  - apply Z.leb_le. reflexivity.
  - exists rgba. split; [exact Hph |].
    destruct (Hpix 0) as (_ & H0 & H1 & H2 & H3);
      [split; [lia | apply Z.ltb_lt; reflexivity] |].
    repeat split; [exact H0 | exact H1 | exact H2 | exact H3].
Defined.

Lemma batch_counters_balance_witness :
  exists report files,
    demo_batch [2; 0; 1; 2]%nat = (Returns report, world (demo_loop [2; 0; 1; 2]%nat),
                                   trace (demo_loop [2; 0; 1; 2]%nat)) /\
    report !! "output_files" = Some (PyStrList files) /\
    processed (demo_loop [2; 0; 1; 2]%nat) + errors (demo_loop [2; 0; 1; 2]%nat)
    = Z.of_nat (length demo_image_paths) /\
    Z.of_nat (length files) = processed (demo_loop [2; 0; 1; 2]%nat).
Proof.
  destruct (batch_counters_balance (gmap string Mat) (disk_imread demo_inputs)
              (disk_imwrite []) (disk_imwrite_needs_name []) ∅ 8 1500 [2; 0; 1; 2]%nat
              demo_image_paths demo_masks demo_output_paths demo_fit demo_preconditions)
    as (report & files & st & -> & Hcall & _ & _ & Hfiles & Hsum & Hlen & _).
  exists report, files. unfold demo_batch, demo_loop.
  split; [exact Hcall |]. split; [exact Hfiles |]. split; [exact Hsum | exact Hlen].
Defined.

Lemma batch_preflight_raises_witness :
  exists what,
    batch_create_rgba_optimized (disk_imread demo_inputs) (disk_imwrite []) ∅ 8 1500 []
      demo_image_paths demo_masks ["out/a.png"; "out/b.png"]
    = (Throws (invalid_argument what), ∅, []).
Proof.
  apply (batch_preflight_raises (gmap string Mat) (disk_imread demo_inputs)
           (disk_imwrite []) ∅ 8 1500 [] demo_image_paths demo_masks
           ["out/a.png"; "out/b.png"] demo_fit).
  right. left. cbn. lia.
Defined.

(** In the example the first and the third task are the good ones. Under a
    schedule that completes the third task first, then the second, then the
    first, output_files is the first and the third output path, in that
    order. *)
Lemma batch_output_order_witness :
  exists report,
    demo_batch [2; 2; 1; 1; 0; 0]%nat
    = (Returns report, world (demo_loop [2; 2; 1; 1; 0; 0]%nat),
       trace (demo_loop [2; 2; 1; 1; 0; 0]%nat)) /\
    report !! "output_files" = Some (PyStrList ["out/a.png"; "out/c.png"]).
Proof.
  destruct (batch_output_order (gmap string Mat) (disk_imread demo_inputs)
              (disk_imwrite []) (disk_imwrite_needs_name []) ∅ 8 1500
              [2; 2; 1; 1; 0; 0]%nat demo_image_paths demo_masks demo_output_paths
              demo_fit demo_preconditions)
    as (report & st & -> & Hcall & _ & _ & _ & _ & Hgood & _).
  exists report. unfold demo_batch, demo_loop. split; [exact Hcall |].
  apply (Hgood (fun i => negb (Nat.eqb i 1))).
  intros i Hi.
  destruct i as [| [| [| i]]]; [| | | exfalso; cbn in Hi; lia]; cbn [negb Nat.eqb].
  - split; [intros w; reflexivity | intros w rgba; reflexivity].
  - left. intros w. reflexivity.
  - split; [intros w; reflexivity | intros w rgba; reflexivity].
Defined.

Lemma failed_task_isolated_witness :
  exists report w' tr,
    demo_batch [1; 2; 0]%nat = (Returns report, w', tr) /\
    report !! "processed" = Some (PyInt 2) /\
    report !! "errors" = Some (PyInt 1) /\
    report !! "output_files" = Some (PyStrList ["out/a.png"; "out/c.png"]).
Proof.
  destruct (failed_task_isolated (gmap string Mat) (disk_imread demo_inputs)
              (disk_imwrite []) (disk_imwrite_needs_name [])) as (_ & _ & Hthree).
  apply (Hthree ∅ 8 1500 [1; 2; 0]%nat "in/a.jpg" "in/b.jpg" "in/c.jpg"
           "out/a.png" "out/b.png" "out/c.png" demo_masks demo_preconditions).
  - intros w'. reflexivity.
  - intros w' rgba. reflexivity.
  - intros w'. exists (mkMat 2 1 3 [11; 21; 31; 41; 51; 61]).
    split; [reflexivity |]. split; [reflexivity |]. left.
    intros H. vm_compute in H. discriminate H.
  - intros w'. reflexivity.
  - intros w' rgba. reflexivity.
Defined.

Lemma demo_returns (sched : list nat) :
  demo_batch sched
  = (Returns
       (build_results (processed (demo_loop sched)) (errors (demo_loop sched))
          (output_files (demo_loop sched)) 1500 (to_int (shape_at demo_masks 1))
          (to_int (shape_at demo_masks 2)) (max_threads_of 8)),
     world (demo_loop sched), trace (demo_loop sched)).
Proof.
  unfold demo_batch, demo_loop.
  apply batch_returns; [exact demo_fit | exact demo_preconditions].
Qed.

(** C3, as the specification has it, fails: the report of the example batch
    has a field, uploaded, that is none of the seven. *)
Lemma report_fields_counterexample :
  exists report w' tr,
    demo_batch [] = (Returns report, w', tr) /\
    "uploaded" ∈ dom report /\ dom report <> spec_report_fields.
Proof.
  eexists _, _, _. split; [apply demo_returns |].
  rewrite results_dom.
  assert (Hin : "uploaded" ∈ code_report_fields).
  { unfold code_report_fields. apply elem_of_union_r, elem_of_singleton. reflexivity. }
  split; [exact Hin |].
  intros Heq. rewrite Heq in Hin. revert Hin. unfold spec_report_fields.
  rewrite !elem_of_union, !elem_of_singleton. intuition discriminate.
Qed.

Lemma report_field_set_witness :
  exists report w' tr,
    demo_batch [] = (Returns report, w', tr) /\
    dom report = spec_report_fields ∪ {[ "uploaded" ]} /\
    report !! "uploaded" = Some (PyInt 0).
Proof.
  eexists _, _, _. split; [apply demo_returns |].
  destruct (report_field_set (gmap string Mat) (disk_imread demo_inputs) (disk_imwrite [])
              ∅ 8 1500 [] demo_image_paths demo_masks demo_output_paths _ _ _
              (demo_returns [])) as (Hdom & _ & Hup).
  split; [exact Hdom | exact Hup].
Defined.

Lemma batch_threads_used_witness :
  exists report w' tr,
    demo_batch [] = (Returns report, w', tr) /\
    report !! "threads_used" = Some (PyInt 4).
Proof.
  eexists _, _, _. split; [apply demo_returns |].
  destruct (batch_threads_used (gmap string Mat) (disk_imread demo_inputs) (disk_imwrite [])
              ∅ 8 1500 [] demo_image_paths demo_masks demo_output_paths _ _ _
              ltac:(unfold INT_MAX; lia) (demo_returns [])) as (_ & Hthreads).
  exact Hthreads.
Defined.

Lemma demo_masks_wf : mask_volume_wf demo_masks.
Proof.
  unfold mask_volume_wf, PyArray_wf, INT_MAX. cbn.
  repeat split; try lia. repeat constructor; lia.
Qed.

Lemma single_refines_batch_task_witness :
  exists (b : bool) (events : list Event),
    create_rgba_single (disk_imread demo_inputs) (disk_imwrite []) ∅
      (path_at demo_image_paths 0) (mask_plane demo_masks 0) (path_at demo_output_paths 0)
    = (Returns b,
       world (task_body (disk_imread demo_inputs) (disk_imwrite [])
                (tasks_of demo_image_paths demo_masks demo_output_paths) (loop_init ∅ 3) 0),
       events).
Proof.
  destruct (single_refines_batch_task (gmap string Mat) (disk_imread demo_inputs)
              (disk_imwrite []) demo_image_paths demo_output_paths demo_masks
              (loop_init ∅ 3) 0 demo_masks_wf)
    as (b & events & Hcall & _).
  - cbn. lia.
  - unfold INT_MAX. lia.
  - reflexivity.
  - exists b, events. exact Hcall.
Defined.

Lemma single_rejects_bad_rank_witness :
  create_rgba_single (disk_imread demo_inputs) (disk_imwrite []) ∅ "in/a.jpg"
    (mkPyArray [6] [255; 0; 0; 0; 1; 7]) "out/a.png"
  = (Returns false, ∅, [EvRead "in/a.jpg"]).
Proof.
  apply (single_rejects_bad_rank (gmap string Mat) (disk_imread demo_inputs)
           (disk_imwrite []) ∅ "in/a.jpg" "out/a.png" (mkPyArray [6] [255; 0; 0; 0; 1; 7])).
  intros H. vm_compute in H. discriminate H.
Defined.

(** * Further properties of the source *)

(** ** The gradient of the text component *)

Lemma js_at_last_snoc (a : list (option string)) (x : option string) :
  js_at (a ++ [x]) (Z.of_nat (length (a ++ [x])) - 1) = x.
Proof.
  unfold js_at. rewrite length_app. cbn [length].
  replace (Z.of_nat (length a + 1) - 1) with (Z.of_nat (length a)) by lia.
  destruct (Z.ltb_spec (Z.of_nat (length a)) 0) as [E | E]; [exfalso; lia |].
  rewrite Nat2Z.id. now rewrite list_lookup_middle.
Qed.

Lemma js_at_first_app (a b : list (option string)) :
  a <> [] -> js_at (a ++ b) 0 = js_at a 0.
Proof. intros Ha. destruct a; [done | reflexivity]. Qed.

(** What the component paints ends as it starts. *)
Lemma loopingColors_ends (colors : list (option string)) :
  js_at (loopingColors colors) (Z.of_nat (length (loopingColors colors)) - 1)
  = js_at (loopingColors colors) 0.
Proof.
  unfold loopingColors, js_strict_eq.
  destruct (bool_decide_reflect
              (js_at colors (Z.of_nat (length colors) - 1) = js_at colors 0)) as [Heq | Hne].
  - exact Heq.
  - assert (Hcolors : colors <> []) by (intros ->; now apply Hne).
    now rewrite js_at_last_snoc, js_at_first_app.
Qed.

(** The gradient loops without a seam: the list of colours the component
    paints starts and ends with the same value, begins with the colours it
    was given, and is at most one longer; it is the given list exactly when
    that list already ends as it starts. *)
Theorem loopingColors_closed (colors : list (option string)) :
  js_at (loopingColors colors) (Z.of_nat (length (loopingColors colors)) - 1)
  = js_at (loopingColors colors) 0 /\
  colors `prefix_of` loopingColors colors /\
  (length (loopingColors colors) <= length colors + 1)%nat /\
  (loopingColors colors = colors <->
   js_at colors (Z.of_nat (length colors) - 1) = js_at colors 0).
Proof.
  split; [apply loopingColors_ends |].
  unfold loopingColors, js_strict_eq.
  destruct (bool_decide_reflect
              (js_at colors (Z.of_nat (length colors) - 1) = js_at colors 0)) as [Heq | Hne].
  - split; [reflexivity |]. split; [lia |]. tauto.
  - split; [now apply prefix_app_r |].
    split; [rewrite length_app; cbn; lia |].
    split; [| tauto]. intros Hsame.
    apply (f_equal length) in Hsame. rewrite length_app in Hsame. cbn in Hsame. lia.
Qed.

(** Closing the loop twice is closing it once. *)
Theorem loopingColors_idempotent (colors : list (option string)) :
  loopingColors (loopingColors colors) = loopingColors colors.
Proof.
  pose proof (loopingColors_ends colors) as Hclosed.
  unfold loopingColors at 1. unfold js_strict_eq.
  now rewrite bool_decide_eq_true_2.
Qed.

(** ** The capability query *)

(** The record of the query always has its five general fields;
    omp_num_procs and openmp_version are there exactly in a build with
    OpenMP, which reports the thread count of the runtime, and a build
    without OpenMP reports one thread. *)
Theorem optimization_info_fields (cfg : BuildConfig)
    (omp_max_threads omp_num_procs hardware_concurrency : Z) :
  dom (get_optimization_info cfg omp_max_threads omp_num_procs hardware_concurrency)
  = {[ "openmp_enabled"; "omp_max_threads"; "hardware_concurrency"; "simd_level";
       "compiler_optimization" ]}
    ∪ (if openmp_enabled cfg then {[ "omp_num_procs"; "openmp_version" ]} else ∅) /\
  get_optimization_info cfg omp_max_threads omp_num_procs hardware_concurrency
    !! "openmp_enabled"
  = Some (InfoBool (openmp_enabled cfg)) /\
  get_optimization_info cfg omp_max_threads omp_num_procs hardware_concurrency
    !! "omp_max_threads"
  = Some (InfoInt (if openmp_enabled cfg then omp_max_threads else 1)) /\
  get_optimization_info cfg omp_max_threads omp_num_procs hardware_concurrency
    !! "omp_num_procs"
  = (if openmp_enabled cfg then Some (InfoInt omp_num_procs) else None) /\
  get_optimization_info cfg omp_max_threads omp_num_procs hardware_concurrency
    !! "openmp_version"
  = InfoInt <$> cfg_OPENMP cfg.
Proof.
  unfold get_optimization_info, openmp_enabled.
  destruct (cfg_OPENMP cfg) as [version |].
  - split; [rewrite !dom_insert_L, dom_empty_L; set_solver |].
    repeat split; by simplify_map_eq.
  - split; [rewrite !dom_insert_L, dom_empty_L; set_solver |].
    repeat split; by simplify_map_eq.
Qed.

(** The simd_level field of the record the query returns names the widest
    instruction set the build enables: that set is enabled, no wider one
    is, and the field is basic exactly when none of the four is enabled. *)
Theorem simd_level_widest (cfg : BuildConfig)
    (omp_max_threads omp_num_procs hardware_concurrency : Z) :
  exists level,
    get_optimization_info cfg omp_max_threads omp_num_procs hardware_concurrency
      !! "simd_level" = Some (InfoStr level) /\
    (simd_rank level <> 0%nat -> simd_enabled cfg (simd_rank level) = true) /\
    (forall r, (simd_rank level < r)%nat -> simd_enabled cfg r = false) /\
    (level = "basic" <->
     cfg_AVX512F cfg = false /\ cfg_AVX2 cfg = false /\ cfg_AVX cfg = false /\
     cfg_SSE4_2 cfg = false).
Proof.
  exists (simd_level_of cfg).
  split.
  { unfold get_optimization_info. destruct (cfg_OPENMP cfg); by simplify_map_eq. }
  unfold simd_level_of.
  destruct cfg as [openmp a b c d optimize].
  cbn [cfg_AVX512F cfg_AVX2 cfg_AVX cfg_SSE4_2].
  destruct a, b, c, d; cbn.
  all: split; [intros H; first [reflexivity | now contradiction H] |].
  all: split;
    [intros r Hr; do 5 (destruct r as [| r]; [first [lia | reflexivity] |]); reflexivity |].
  all: split; [intros H; first [discriminate H | repeat split]
              | intros (Ha & Hb & Hc & Hd); first [reflexivity | discriminate]].
Qed.

(** ** The files a batch touches *)

Section IndexLists.

Implicit Types (f : TaskPhase -> bool) (phs : list TaskPhase).

(** A filter over distinct indices, when the predicate changes at one. *)
Lemma filter_flip (g g' : nat -> bool) (i : nat) (l : list nat) :
  NoDup l -> i ∈ l -> (forall j, j <> i -> g' j = g j) -> g i = false -> g' i = true ->
  List.filter g' l ≡ₚ i :: List.filter g l.
Proof.
  intros Hnd Hin Hother Hi Hi'.
  apply list_elem_of_split in Hin as (l1 & l2 & ->).
  apply NoDup_app in Hnd as (_ & Hdisj & Hnd2). apply NoDup_cons in Hnd2 as [Hnot2 _].
  assert (Hnot1 : i ∉ l1) by (intros H1; apply (Hdisj i H1); left).
  rewrite !List.filter_app. cbn [List.filter]. rewrite Hi, Hi'.
  assert (Hext : forall l0, i ∉ l0 -> List.filter g' l0 = List.filter g l0).
  { intros l0 Hl0. apply List.filter_ext_in. intros j Hj. apply Hother.
    intros ->. apply Hl0. now apply list_elem_of_In. }
  rewrite !Hext by done. symmetry. apply Permutation_middle.
Qed.

Lemma indices_where_same f phs (i : nat) x y :
  phs !! i = Some x -> f x = f y ->
  indices_where f (<[i := y]> phs) = indices_where f phs.
Proof.
  intros Hi Hf. unfold indices_where. rewrite length_insert.
  apply List.filter_ext. intros j. destruct (decide (i = j)) as [<- | Hne].
  - rewrite list_lookup_insert_eq by (eapply lookup_lt_Some; eauto). now rewrite Hi.
  - now rewrite list_lookup_insert_ne.
Qed.

Lemma indices_where_gain f phs (i : nat) x y :
  phs !! i = Some x -> f x = false -> f y = true ->
  indices_where f (<[i := y]> phs) ≡ₚ i :: indices_where f phs.
Proof.
  intros Hi Hx Hy. unfold indices_where. rewrite length_insert.
  pose proof (lookup_lt_Some _ _ _ Hi) as Hlt.
  apply filter_flip.
  - apply NoDup_seq.
  - apply elem_of_seq. lia.
  - intros j Hj. now rewrite list_lookup_insert_ne.
  - now rewrite Hi.
  - now rewrite list_lookup_insert_eq.
Qed.

Lemma indices_where_all f phs :
  Forall (fun ph => f ph = true) phs -> indices_where f phs = seq 0 (length phs).
Proof.
  intros Hall. unfold indices_where.
  rewrite <- (List.filter_ext_in (fun _ => true)).
  - induction (seq 0 (length phs)) as [| a l IH]; [done |]. cbn. now rewrite IH.
  - intros j Hj. apply in_seq in Hj.
    destruct (lookup_lt_is_Some_2 phs j) as [ph Hph]; [lia |]. rewrite Hph.
    symmetry. exact (proj1 (Forall_lookup _ _) Hall j ph Hph).
Qed.

Lemma indices_where_none f (n : nat) :
  f Pending = false -> indices_where f (replicate n Pending) = [].
Proof.
  intros Hf. unfold indices_where.
  rewrite <- (List.filter_ext_in (fun _ => false)).
  - induction (seq 0 (length (replicate n Pending))) as [| a l IH]; [done |]. exact IH.
  - intros j Hj. destruct (replicate n Pending !! j) as [ph |] eqn:E; [| done].
    apply lookup_replicate in E as [-> _]. now rewrite Hf.
Qed.

Lemma map_path_at_seq (l : list string) : map (path_at l) (seq 0 (length l)) = l.
Proof.
  induction l as [| a l IH]; [done |].
  cbn [length seq map]. rewrite <- seq_shift, map_map. f_equal. exact IH.
Qed.

Lemma outputs_of_successful_indices phs (outs : list string) :
  outputs_of_successful phs outs = map (path_at outs) (indices_where is_succeeded phs).
Proof.
  unfold outputs_of_successful, indices_where.
  erewrite List.filter_ext; [reflexivity |]. intros j. unfold succeeded_at.
  destruct (phs !! j) as [[| | |] |]; reflexivity.
Qed.

End IndexLists.

(** The world a batch call leaves is the world it found with the writes of
    its trace applied in their order: reading, counting and a failed check
    change no file, and a call whose trace has no write leaves the world as
    it was. *)
Theorem batch_world_replay (World : Type) (imread : World -> string -> ReadResult)
    (imwrite : World -> string -> Mat -> WriteResult * World) (w : World)
    (hc duration_us : Z) (sched : list nat) (image_paths : list string)
    (masks_array : PyArray) (output_paths : list string) :
  (batch_create_rgba_optimized imread imwrite w hc duration_us sched
     image_paths masks_array output_paths).1.2
  = replay imwrite w
      (batch_create_rgba_optimized imread imwrite w hc duration_us sched
         image_paths masks_array output_paths).2 /\
  (written_paths
     (batch_create_rgba_optimized imread imwrite w hc duration_us sched
        image_paths masks_array output_paths).2 = [] ->
   (batch_create_rgba_optimized imread imwrite w hc duration_us sched
      image_paths masks_array output_paths).1.2 = w).
Proof.
  assert (Hreplay :
    (batch_create_rgba_optimized imread imwrite w hc duration_us sched
       image_paths masks_array output_paths).1.2
    = replay imwrite w
        (batch_create_rgba_optimized imread imwrite w hc duration_us sched
           image_paths masks_array output_paths).2).
  { unfold batch_create_rgba_optimized.
    destruct (preflight image_paths masks_array output_paths); [reflexivity |].
    cbn [fst snd]. unfold batch_loop. now apply replay_parallel_for. }
  split; [exact Hreplay |].
  intros Hnone. rewrite Hreplay. now apply replay_no_write.
Qed.

Section FootprintInvariant.

Variable World : Type.
Variable imread : World -> string -> ReadResult.
Variable imwrite : World -> string -> Mat -> WriteResult * World.
Variable ts : TaskSet.

Implicit Types (st : LoopState World) (i : nat).

Lemma footprint_init (w : World) (n : Z) : footprint_inv ts (loop_init w n).
Proof.
  unfold footprint_inv, loop_init. cbn [trace phases].
  rewrite !indices_where_none by reflexivity. done.
Qed.

(** The load of a pending task: one read more, one started task more. *)
Lemma footprint_load st i (ph : TaskPhase) (tail : list Event) (w : World)
    (p e : Z) (files : list string) :
  phases st !! i = Some Pending -> is_started ph = true -> is_succeeded ph = false ->
  written_paths tail = [] -> read_paths tail = [] ->
  footprint_inv ts st ->
  footprint_inv ts
    (mkLoop w ((trace st ++ [EvRead (path_at (ts_image_paths ts) i)]) ++ tail) p e files
       (<[i := ph]> (phases st))).
Proof.
  intros Hi Hstarted Hsucc Hw Hr (F1 & F2 & F3).
  unfold footprint_inv. cbn [trace phases].
  rewrite !read_paths_app, !written_paths_app, Hw, Hr, !app_nil_r.
  change (read_paths [EvRead (path_at (ts_image_paths ts) i)])
    with [path_at (ts_image_paths ts) i].
  change (written_paths [EvRead (path_at (ts_image_paths ts) i)]) with (@nil string).
  rewrite ?app_nil_r.
  split.
  { rewrite (indices_where_gain is_started _ i Pending ph) by done.
    cbn [map]. rewrite <- F1. symmetry. apply Permutation_cons_append. }
  split.
  { destruct (is_finished ph) eqn:Hfin.
    - rewrite (indices_where_gain is_finished _ i Pending ph) by done.
      cbn [map]. now apply submseteq_cons.
    - now rewrite (indices_where_same is_finished _ i Pending ph). }
  now rewrite (indices_where_same is_succeeded _ i Pending ph).
Qed.

(** The write of a loaded task: one write more, one finished task more. *)
Lemma footprint_write st i (rgba : Mat) (ph : TaskPhase) (tail : list Event) (w : World)
    (p e : Z) (files : list string) :
  phases st !! i = Some (Loaded rgba) -> is_finished ph = true ->
  written_paths tail = [] -> read_paths tail = [] ->
  footprint_inv ts st ->
  footprint_inv ts
    (mkLoop w ((trace st ++ [EvWrite (path_at (ts_output_paths ts) i) rgba]) ++ tail)
       p e files (<[i := ph]> (phases st))).
Proof.
  intros Hi Hfin Hw Hr (F1 & F2 & F3).
  assert (Hstarted : is_started ph = true) by (destruct ph; done).
  unfold footprint_inv. cbn [trace phases].
  rewrite !read_paths_app, !written_paths_app, Hw, Hr, !app_nil_r.
  change (read_paths [EvWrite (path_at (ts_output_paths ts) i) rgba]) with (@nil string).
  change (written_paths [EvWrite (path_at (ts_output_paths ts) i) rgba])
    with [path_at (ts_output_paths ts) i].
  rewrite ?app_nil_r.
  split; [now rewrite (indices_where_same is_started _ i (Loaded rgba) ph) |].
  split.
  { rewrite (indices_where_gain is_finished _ i (Loaded rgba) ph) by done.
    cbn [map]. rewrite <- Permutation_cons_append. now apply submseteq_skip. }
  destruct (is_succeeded ph) eqn:Hsucc.
  - rewrite (indices_where_gain is_succeeded _ i (Loaded rgba) ph) by done.
    cbn [map]. rewrite <- Permutation_cons_append. now apply submseteq_skip.
  - rewrite (indices_where_same is_succeeded _ i (Loaded rgba) ph) by done.
    rewrite <- Permutation_cons_append. now apply submseteq_cons.
Qed.

Lemma footprint_step st i :
  footprint_inv ts st -> footprint_inv ts (task_step imread imwrite ts st i).
Proof.
  intros Hinv. unfold task_step.
  destruct (phases st !! i) as [[| rgba | |] |] eqn:Hi; try assumption.
  - unfold load_phase. cbn [world trace processed errors output_files phases].
    destruct (imread (world st) (path_at (ts_image_paths ts) i)) as [image | e].
    + destruct (Mat_empty image);
        [| destruct (negb (rows image =? ts_height ts) || negb (cols image =? ts_width ts))];
        cbn [count_error world trace processed errors output_files phases].
      * now apply (footprint_load st i Failed [EvError i]).
      * now apply (footprint_load st i Failed [EvError i]).
      * rewrite <- (app_nil_r (trace st ++ _)). now apply (footprint_load st i _ []).
    + cbn [count_error world trace processed errors output_files phases].
      now apply (footprint_load st i Failed [EvError i]).
  - unfold write_phase.
    destruct (imwrite (world st) (path_at (ts_output_paths ts) i) rgba) as [[| | e] w];
      cbn [count_error world trace processed errors output_files phases].
    + now apply (footprint_write st i rgba Succeeded [EvProcessed i]).
    + now apply (footprint_write st i rgba Failed [EvError i]).
    + now apply (footprint_write st i rgba Failed [EvError i]).
Qed.

Lemma footprint_parallel_for st (sched : list nat) (n : Z) :
  footprint_inv ts st -> footprint_inv ts (parallel_for imread imwrite ts st sched n).
Proof.
  intros Hinv. unfold parallel_for.
  assert (Hsteps : forall l st0, footprint_inv ts st0 ->
            footprint_inv ts (foldl (task_step imread imwrite ts) st0 l)).
  { induction l as [| j l IH]; intros st0 H0; [done |].
    cbn [foldl]. now apply IH, footprint_step. }
  assert (Hbodies : forall l st0, footprint_inv ts st0 ->
            footprint_inv ts (foldl (task_body imread imwrite ts) st0 l)).
  { induction l as [| j l IH]; intros st0 H0; [done |].
    cbn [foldl]. apply IH. unfold task_body. now do 2 apply footprint_step. }
  now apply Hbodies, Hsteps.
Qed.

End FootprintInvariant.

(** ** The single-image path on its own *)

Lemma single_composite_spec (image : Mat) (mask_data : list Z) (height width : Z) :
  Mat_wf 3 image -> rows image = height -> cols image = width ->
  4 * (height * width) <= 2 ^ 31 ->
  rows (single_composite image mask_data height width) = height /\
  cols (single_composite image mask_data height width) = width /\
  channels (single_composite image mask_data height width) = 4 /\
  Z.of_nat (length (data (single_composite image mask_data height width)))
  = 4 * (height * width) /\
  forall p, 0 <= p < height * width ->
    pixel_contract (swap_rb (data image)) mask_data
      (data (single_composite image mask_data height width)) p.
Proof.
  intros (Hr & Hc & _ & Hlen) <- <- Hfit.
  unfold single_composite. cbn [rows cols channels data Mat_create cvtColor_BGR2RGB].
  assert (Hpix : 0 <= rows image * cols image) by nia.
  unfold int_mul. rewrite (to_int_id (rows image * cols image)) by (unfold INT_MAX; lia).
  rewrite (pixel_loops_agree _ mask_data mask_data) by done.
  destruct (pixel_loop_spec (swap_rb (data image)) mask_data
              (rows image * cols image) Hfit
              (replicate (Z.to_nat (rows image * cols image * 4)) 0)
              (Z.to_nat (rows image * cols image))) as [Hl Hp].
  { lia. }
  { rewrite length_replicate. lia. }
  rewrite Z2Nat.id in Hl, Hp by lia.
  do 3 (split; [done |]).
  split; [| exact Hp].
  rewrite Hl, length_replicate. lia.
Qed.

Section SingleAlone.

Variable World : Type.
Variable imread : World -> string -> ReadResult.
Variable imwrite : World -> string -> Mat -> WriteResult * World.

(** When the image loads with the dimensions of a two-dimensional mask, the
    single-image path hands the writer an RGBA image of these dimensions
    whose R, G and B bytes are the source's third, second and first byte at
    every pixel and whose alpha byte is 255 where the mask byte is above 0
    and 0 elsewhere, and it returns what the writer returns. The sizes are
    those for which the [int] offsets of the loop are defined. *)
Theorem single_pixels (w : World) (image_path output_path : string) (mask : PyArray)
    (image : Mat) :
  imread w image_path = ReadMat image ->
  Mat_empty image = false -> Mat_wf 3 image ->
  ndim mask = 2 ->
  rows image = shape_at mask 0 -> cols image = shape_at mask 1 ->
  4 * (rows image * cols image) <= 2 ^ 31 ->
  exists (rgba : Mat) (b : bool) (w' : World),
    create_rgba_single imread imwrite w image_path mask output_path
    = (Returns b, w', [EvRead image_path; EvWrite output_path rgba]) /\
    (b = true <-> (imwrite w output_path rgba).1 = WriteTrue) /\
    rows rgba = rows image /\ cols rgba = cols image /\ channels rgba = 4 /\
    Z.of_nat (length (data rgba)) = 4 * (rows image * cols image) /\
    forall p, 0 <= p < rows image * cols image ->
      load (data rgba) (4 * p) = load (data image) (3 * p + 2) /\
      load (data rgba) (4 * p + 1) = load (data image) (3 * p + 1) /\
      load (data rgba) (4 * p + 2) = load (data image) (3 * p) /\
      load (data rgba) (4 * p + 3) = (if 0 <? load (buf_data mask) p then 255 else 0).
Proof.
  intros Hread Hne Hwf Hnd Hrows Hcols Hfit.
  pose proof Hwf as (Hr & Hc & _ & Hdata).
  assert (Hh : to_int (shape_at mask 0) = rows image) by (rewrite <- Hrows; now apply to_int_id; lia).
  assert (Hw : to_int (shape_at mask 1) = cols image) by (rewrite <- Hcols; now apply to_int_id; lia).
  destruct (single_composite_spec image (buf_data mask) (rows image) (cols image))
    as (S1 & S2 & S3 & S4 & S5); try done.
  exists (single_composite image (buf_data mask) (rows image) (cols image)).
  unfold create_rgba_single, create_rgba_single_try.
  rewrite Hread, Hne, Hnd, Hh, Hw, !Z.eqb_refl. cbn [negb orb].
  destruct (imwrite w output_path
              (single_composite image (buf_data mask) (rows image) (cols image)))
    as [[| | e] w'] eqn:Hcall.
  1: exists true, w'. 2: exists false, w'. 3: exists false, w'; rewrite std_exception_caught.
  all: split; [reflexivity |].
  all: split; [cbn [fst]; split; intros H; first [reflexivity | discriminate H] |].
  all: do 4 (split; [done |]).
  all: intros p Hp; destruct (S5 p Hp) as (P0 & P1 & P2 & P3).
  all: destruct (load_swap_rb (data image) p) as (Q0 & Q1 & Q2); [lia | nia |].
  all: rewrite P0, P1, P2, P3, Q0, Q1, Q2; done.
Qed.

(** A call of the single-image path never throws. It reads the image
    path once and nothing else; it writes at most once, and then to the
    output path; the world it leaves is the world it found with that write
    applied; it returns [true] only when the writer has returned [true];
    and when it has not called the writer it returns [false] and leaves the
    world as it found it. *)
Theorem single_call_footprint (w : World) (image_path output_path : string)
    (mask : PyArray) :
  exists (b : bool) (w' : World) (events : list Event),
    create_rgba_single imread imwrite w image_path mask output_path
    = (Returns b, w', events) /\
    read_paths events = [image_path] /\
    (written_paths events = [] \/ written_paths events = [output_path]) /\
    w' = replay imwrite w events /\
    (b = true ->
     exists rgba, events = [EvRead image_path; EvWrite output_path rgba] /\
                  imwrite w output_path rgba = (WriteTrue, w')) /\
    (written_paths events = [] -> b = false /\ w' = w).
Proof.
  unfold create_rgba_single, create_rgba_single_try.
  destruct (imread w image_path) as [image | e].
  2: { rewrite std_exception_caught. exists false, w, [EvRead image_path].
       repeat split; try done. now left. }
  destruct (Mat_empty image).
  { exists false, w, [EvRead image_path]. repeat split; try done. now left. }
  destruct (negb (ndim mask =? 2)).
  { cbn [is_std_exception]. exists false, w, [EvRead image_path].
    repeat split; try done. now left. }
  destruct (negb (rows image =? to_int (shape_at mask 0))
            || negb (cols image =? to_int (shape_at mask 1))).
  { exists false, w, [EvRead image_path]. repeat split; try done. now left. }
  set (rgba := single_composite image (buf_data mask) (to_int (shape_at mask 0))
                 (to_int (shape_at mask 1))).
  destruct (imwrite w output_path rgba) as [[| | e] w'] eqn:Hcall.
  - exists true, w', [EvRead image_path; EvWrite output_path rgba].
    split; [reflexivity |]. split; [reflexivity |]. split; [now right |].
    split; [unfold replay; cbn; now rewrite Hcall |].
    split; [intros _; now exists rgba | discriminate].
  - exists false, w', [EvRead image_path; EvWrite output_path rgba].
    split; [reflexivity |]. split; [reflexivity |]. split; [now right |].
    split; [unfold replay; cbn; now rewrite Hcall |].
    split; discriminate.
  - rewrite std_exception_caught.
    exists false, w', [EvRead image_path; EvWrite output_path rgba].
    split; [reflexivity |]. split; [reflexivity |]. split; [now right |].
    split; [unfold replay; cbn; now rewrite Hcall |].
    split; discriminate.
Qed.

End SingleAlone.

(** ** More on the batch call *)

Section BatchFurther.

Variable World : Type.
Variable imread : World -> string -> ReadResult.
Variable imwrite : World -> string -> Mat -> WriteResult * World.

Implicit Types (w : World) (sched : list nat) (image_paths output_paths : list string).

(** The checks before the loop fail in their order, each with its own
    message: an empty input list first, then a different number of output
    paths, then a mask volume that is not three-dimensional with one plane
    per input path. *)
Theorem batch_preflight_messages w hc duration_us sched image_paths masks_array
    output_paths :
  Z.of_nat (length image_paths) <= INT_MAX ->
  (image_paths = [] ->
   batch_create_rgba_optimized imread imwrite w hc duration_us sched
     image_paths masks_array output_paths
   = (Throws (invalid_argument "No images provided"), w, [])) /\
  (image_paths <> [] -> length output_paths <> length image_paths ->
   batch_create_rgba_optimized imread imwrite w hc duration_us sched
     image_paths masks_array output_paths
   = (Throws (invalid_argument "Number of image paths must match output paths"), w, [])) /\
  (image_paths <> [] -> length output_paths = length image_paths ->
   ndim masks_array <> 3 \/ shape_at masks_array 0 <> Z.of_nat (length image_paths) ->
   batch_create_rgba_optimized imread imwrite w hc duration_us sched
     image_paths masks_array output_paths
   = (Throws (invalid_argument "Masks array must have shape (num_images, height, width)"),
      w, [])).
Proof.
  intros Hfit. unfold batch_create_rgba_optimized, preflight.
  rewrite (num_images_of_fit _ Hfit).
  assert (Hsz : to_size_t (Z.of_nat (length image_paths)) = Z.of_nat (length image_paths)).
  { apply to_size_t_id. unfold INT_MAX in Hfit. lia. }
  rewrite Hsz.
  split; [intros ->; reflexivity |].
  split.
  - intros Hne Hlen.
    destruct (Z.eqb_spec (Z.of_nat (length image_paths)) 0) as [H0 | H0].
    { destruct image_paths; [done | cbn in H0; lia]. }
    destruct (Z.eqb_spec (Z.of_nat (length image_paths)) (Z.of_nat (length output_paths)))
      as [H1 | H1]; [lia | reflexivity].
  - intros Hne Hlen Hmask.
    destruct (Z.eqb_spec (Z.of_nat (length image_paths)) 0) as [H0 | H0].
    { destruct image_paths; [done | cbn in H0; lia]. }
    destruct (Z.eqb_spec (Z.of_nat (length image_paths)) (Z.of_nat (length output_paths)))
      as [H1 | H1]; [| lia]. cbn [negb].
    destruct (Z.eqb_spec (ndim masks_array) 3) as [H2 | H2]; cbn [negb orb];
      [| reflexivity].
    destruct (Z.eqb_spec (shape_at masks_array 0) (Z.of_nat (length image_paths)))
      as [H3 | H3]; [| reflexivity].
    destruct Hmask; contradiction.
Qed.

(** The thread count a batch reports is the smaller of 4 and the hardware
    parallelism the capability query reports on the same machine; it is
    never above 4. *)
Theorem batch_threads_agree_with_info w hc duration_us sched image_paths masks_array
    output_paths report w' tr (cfg : BuildConfig) (omp_max_threads omp_num_procs : Z) :
  batch_create_rgba_optimized imread imwrite w hc duration_us sched
    image_paths masks_array output_paths = (Returns report, w', tr) ->
  exists threads parallelism,
    report !! "threads_used" = Some (PyInt threads) /\
    get_optimization_info cfg omp_max_threads omp_num_procs hc !! "hardware_concurrency"
    = Some (InfoInt parallelism) /\
    threads = Z.min 4 parallelism /\ threads <= 4.
Proof.
  intros Hcall. exists (max_threads_of hc), (to_int hc).
  rewrite (batch_report_built _ _ _ _ _ _ _ _ _ _ _ _ _ Hcall), results_threads_used.
  split; [reflexivity |].
  split.
  { unfold get_optimization_info. destruct (cfg_OPENMP cfg); by simplify_map_eq. }
  unfold max_threads_of. split; [reflexivity | lia].
Qed.

(** A report with no processed image, over a positive elapsed time, has a
    throughput of zero and an average time of zero. *)
Theorem batch_none_processed_metrics w hc duration_us sched image_paths masks_array
    output_paths report w' tr :
  batch_create_rgba_optimized imread imwrite w hc duration_us sched
    image_paths masks_array output_paths = (Returns report, w', tr) ->
  report !! "processed" = Some (PyInt 0) ->
  PrimFloat.ltb 0 (processing_time_ms_of duration_us / 1000) = true ->
  report !! "throughput_mpix_per_sec" = Some (PyFloat 0) /\
  report !! "avg_time_per_image_ms" = Some (PyFloat 0).
Proof.
  intros Hcall Hnone Hpos.
  rewrite (batch_report_built _ _ _ _ _ _ _ _ _ _ _ _ _ Hcall) in *.
  rewrite results_processed in Hnone. injection Hnone as Hnone.
  rewrite results_throughput, results_avg_time, Hnone.
  now rewrite throughput_zero_when_none_processed.
Qed.

End BatchFurther.

Section BatchFootprint.

Variable World : Type.
Variable imread : World -> string -> ReadResult.
Variable imwrite : World -> string -> Mat -> WriteResult * World.

(** [cv::imwrite] never reports success for the empty file name. *)
Hypothesis imwrite_needs_name :
  forall w img, (imwrite w EmptyString img).1 <> WriteTrue.

Implicit Types (w : World) (sched : list nat) (image_paths output_paths : list string).

(** The trace at the end of the loop of a call that passes the checks. *)
Lemma batch_loop_footprint w sched image_paths masks_array output_paths :
  Z.of_nat (length image_paths) <= INT_MAX ->
  batch_preconditions image_paths masks_array output_paths ->
  read_paths (trace (batch_loop imread imwrite w sched image_paths masks_array output_paths))
    ≡ₚ image_paths /\
  written_paths
    (trace (batch_loop imread imwrite w sched image_paths masks_array output_paths))
    ⊆+ output_paths /\
  outputs_of_successful
    (phases (batch_loop imread imwrite w sched image_paths masks_array output_paths))
    output_paths
    ⊆+ written_paths
         (trace (batch_loop imread imwrite w sched image_paths masks_array output_paths)).
Proof.
  intros Hfit Hpre.
  destruct (batch_loop_facts World imread imwrite imwrite_needs_name w sched image_paths
              masks_array output_paths Hfit Hpre) as (_ & _ & Hfin & Hlen).
  destruct Hpre as (_ & Hout & _).
  assert (Hfoot : footprint_inv (tasks_of image_paths masks_array output_paths)
                    (batch_loop imread imwrite w sched image_paths masks_array output_paths)).
  { unfold batch_loop. apply footprint_parallel_for, footprint_init. }
  destruct Hfoot as (F1 & F2 & F3).
  set (st := batch_loop imread imwrite w sched image_paths masks_array output_paths) in *.
  cbn [ts_image_paths ts_output_paths tasks_of] in F1, F2, F3.
  assert (Hstarted : Forall (fun ph => is_started ph = true) (phases st)).
  { eapply Forall_impl; [exact Hfin |]. intros ph. now destruct ph. }
  rewrite (indices_where_all _ _ Hstarted), Hlen, map_path_at_seq in F1.
  rewrite (indices_where_all _ _ Hfin), Hlen, <- Hout, map_path_at_seq in F2.
  rewrite <- outputs_of_successful_indices in F3.
  done.
Qed.

(** Whatever the schedule, a batch that passes the checks reads every input
    path exactly once (the paths read are the input paths, in some order),
    tries a write on each output path once at most, and every path of
    output_files is among the paths written. *)
Theorem batch_io_footprint w hc duration_us sched image_paths masks_array output_paths :
  Z.of_nat (length image_paths) <= INT_MAX ->
  batch_preconditions image_paths masks_array output_paths ->
  exists report w' tr files,
    batch_create_rgba_optimized imread imwrite w hc duration_us sched
      image_paths masks_array output_paths = (Returns report, w', tr) /\
    report !! "output_files" = Some (PyStrList files) /\
    read_paths tr ≡ₚ image_paths /\
    written_paths tr ⊆+ output_paths /\
    files ⊆+ written_paths tr.
Proof.
  intros Hfit Hpre.
  destruct (batch_loop_footprint w sched image_paths masks_array output_paths Hfit Hpre)
    as (F1 & F2 & F3).
  destruct (batch_loop_facts World imread imwrite imwrite_needs_name w sched image_paths
              masks_array output_paths Hfit Hpre) as ((H1 & H2 & _ & _ & H5 & _) & _).
  cbn [ts_output_paths tasks_of] in H1, H2, H5.
  eexists _, _, _, _.
  split; [now apply batch_returns |].
  split; [apply results_output_files |].
  split; [exact F1 |]. split; [exact F2 |].
  rewrite H2, valid_output_files_slots by done. exact F3.
Qed.

(** When what OpenCV does with the files of a task depends neither on the
    state of the files nor on the image written, the outcome of a batch
    that passes the checks is decided by the paths and by the shape of the
    mask volume: for every two schedules and every two mask volumes of one
    shape the same tasks succeed and, for one reading of the clock, the
    same report is returned. A mask of zeros only, which makes its image
    transparent everywhere, is processed like any other. *)
Theorem batch_outcome_determined w hc duration_us sched sched' image_paths masks_array
    masks_array' output_paths :
  Z.of_nat (length image_paths) <= INT_MAX ->
  batch_preconditions image_paths masks_array output_paths ->
  shape masks_array' = shape masks_array ->
  stable_outcomes imread imwrite (tasks_of image_paths masks_array output_paths) ->
  phases (batch_loop imread imwrite w sched image_paths masks_array output_paths)
  = phases (batch_loop imread imwrite w sched' image_paths masks_array' output_paths) /\
  (batch_create_rgba_optimized imread imwrite w hc duration_us sched
     image_paths masks_array output_paths).1.1
  = (batch_create_rgba_optimized imread imwrite w hc duration_us sched'
       image_paths masks_array' output_paths).1.1.
Proof.
  intros Hfit Hpre Hshape [Hload Hwrite].
  assert (Hat : forall k, shape_at masks_array' k = shape_at masks_array k).
  { intros k. unfold shape_at. now rewrite Hshape. }
  assert (Hpre' : batch_preconditions image_paths masks_array' output_paths).
  { destruct Hpre as (P1 & P2 & P3 & P4). unfold batch_preconditions, ndim.
    rewrite Hshape, Hat. done. }
  assert (Hload' : forall wa i,
            load_ok imread (tasks_of image_paths masks_array' output_paths) wa i
            = load_ok imread (tasks_of image_paths masks_array output_paths) wa i).
  { intros wa i. unfold load_ok, tasks_of. cbn [ts_image_paths ts_height ts_width].
    now rewrite !Hat. }
  destruct (batch_loop_facts World imread imwrite imwrite_needs_name w sched image_paths
              masks_array output_paths Hfit Hpre)
    as ((_ & A2 & A3 & A4 & _) & Ajust & Afin & Alen).
  destruct (batch_loop_facts World imread imwrite imwrite_needs_name w sched' image_paths
              masks_array' output_paths Hfit Hpre')
    as ((_ & B2 & B3 & B4 & _) & Bjust & Bfin & Blen).
  assert (Hphases :
    phases (batch_loop imread imwrite w sched image_paths masks_array output_paths)
    = phases (batch_loop imread imwrite w sched' image_paths masks_array' output_paths)).
  { apply list_eq. intros i. specialize (Ajust i). specialize (Bjust i).
    destruct (phases (batch_loop imread imwrite w sched image_paths masks_array
                        output_paths) !! i) as [pa |] eqn:Ea;
    destruct (phases (batch_loop imread imwrite w sched' image_paths masks_array'
                        output_paths) !! i) as [pb |] eqn:Eb.
    - pose proof (proj1 (Forall_lookup _ _) Afin i pa Ea) as Fa.
      pose proof (proj1 (Forall_lookup _ _) Bfin i pb Eb) as Fb.
      destruct pa, pb; try discriminate; try reflexivity; exfalso.
      + destruct Ajust as [[wa La] [wa' [ra Wa]]].
        destruct Bjust as [[wb Lb] | [wb [rb Wb]]].
        * rewrite Hload', (Hload wb wa) in Lb. congruence.
        * change (write_ok imwrite (tasks_of image_paths masks_array output_paths)
                    wb i rb = false) in Wb.
          rewrite (Hwrite wb wa' i rb ra) in Wb. congruence.
      + destruct Bjust as [[wb Lb] [wb' [rb Wb]]].
        change (write_ok imwrite (tasks_of image_paths masks_array output_paths)
                  wb' i rb = true) in Wb.
        rewrite Hload' in Lb.
        destruct Ajust as [[wa La] | [wa [ra Wa]]].
        * rewrite (Hload wa wb) in La. congruence.
        * rewrite (Hwrite wa wb' i ra rb) in Wa. congruence.
    - apply lookup_lt_Some in Ea. apply lookup_ge_None in Eb. lia.
    - apply lookup_lt_Some in Eb. apply lookup_ge_None in Ea. lia.
    - reflexivity. }
  split; [exact Hphases |].
  rewrite !batch_returns by done. cbn [fst].
  cbn [ts_output_paths tasks_of] in A2, B2.
  rewrite A2, A3, A4, B2, B3, B4, Hphases, !Hat. reflexivity.
Qed.

(** When the pixels of all the images of a batch together are an [int]
    (tasks times height times width), the pixel total the report takes its
    throughput from is the product of the processed count, the height and
    the width: the [int] product of line 231 does not wrap, and the total
    is not negative. *)
Theorem batch_pixel_total_fits w hc duration_us sched image_paths masks_array
    output_paths :
  Z.of_nat (length image_paths) <= INT_MAX ->
  batch_preconditions image_paths masks_array output_paths ->
  0 <= shape_at masks_array 1 <= INT_MAX -> 0 <= shape_at masks_array 2 <= INT_MAX ->
  Z.of_nat (length image_paths) * shape_at masks_array 1 * shape_at masks_array 2
  <= INT_MAX ->
  exists report w' tr count,
    batch_create_rgba_optimized imread imwrite w hc duration_us sched
      image_paths masks_array output_paths = (Returns report, w', tr) /\
    report !! "processed" = Some (PyInt count) /\
    0 <= count <= Z.of_nat (length image_paths) /\
    total_pixels_of count (to_int (shape_at masks_array 1)) (to_int (shape_at masks_array 2))
    = count * shape_at masks_array 1 * shape_at masks_array 2 /\
    0 <= total_pixels_of count (to_int (shape_at masks_array 1))
           (to_int (shape_at masks_array 2))
      <= Z.of_nat (length image_paths) * shape_at masks_array 1 * shape_at masks_array 2.
Proof.
  intros Hfit Hpre Hh Hw Htotal.
  destruct (batch_loop_facts World imread imwrite imwrite_needs_name w sched image_paths
              masks_array output_paths Hfit Hpre)
    as ((_ & _ & H3 & _) & _ & _ & Hlen).
  pose proof (count_phase_le is_succeeded
                (phases (batch_loop imread imwrite w sched image_paths masks_array
                           output_paths))) as Hle.
  rewrite Hlen in Hle.
  set (st := batch_loop imread imwrite w sched image_paths masks_array output_paths) in *.
  assert (Hcount : 0 <= processed st <= Z.of_nat (length image_paths)) by lia.
  assert (Hrow : processed st * shape_at masks_array 1
                 <= Z.of_nat (length image_paths) * shape_at masks_array 1) by nia.
  assert (Hall : processed st * shape_at masks_array 1 * shape_at masks_array 2
                 <= Z.of_nat (length image_paths) * shape_at masks_array 1
                    * shape_at masks_array 2) by nia.
  assert (Hpixels :
    total_pixels_of (processed st) (to_int (shape_at masks_array 1))
      (to_int (shape_at masks_array 2))
    = processed st * shape_at masks_array 1 * shape_at masks_array 2).
  { rewrite !to_int_id by (unfold INT_MAX in *; lia).
    apply total_pixels_of_fit; lia. }
  eexists _, _, _, (processed st).
  split; [now apply batch_returns |].
  split; [apply results_processed |].
  split; [exact Hcount |].
  split; [exact Hpixels |].
  rewrite Hpixels. split; [nia | exact Hall].
Qed.

End BatchFootprint.

(** ** The further properties on the example world *)

Lemma single_pixels_witness :
  exists (rgba : Mat) (b : bool) (w' : gmap string Mat),
    create_rgba_single (disk_imread demo_inputs) (disk_imwrite []) ∅ "in/a.jpg"
      (mkPyArray [1; 2] [255; 0]) "out/a.png"
    = (Returns b, w', [EvRead "in/a.jpg"; EvWrite "out/a.png" rgba]) /\
    load (data rgba) 3 = 255 /\ load (data rgba) 7 = 0.
Proof.
  destruct (single_pixels (gmap string Mat) (disk_imread demo_inputs) (disk_imwrite []) ∅
              "in/a.jpg" "out/a.png" (mkPyArray [1; 2] [255; 0])
              (mkMat 1 2 3 [10; 20; 30; 40; 50; 60]))
    as (rgba & b & w' & Hcall & _ & _ & _ & _ & _ & Hpix).
  - reflexivity.
  - reflexivity.
  - unfold Mat_wf, INT_MAX. cbn. lia.
  - reflexivity.
  - reflexivity.
  - reflexivity.
  - apply Z.leb_le. reflexivity.
  - exists rgba, b, w'. split; [exact Hcall |].
    destruct (Hpix 0) as (_ & _ & _ & A0); [split; [lia | apply Z.ltb_lt; reflexivity] |].
    destruct (Hpix 1) as (_ & _ & _ & A1); [split; [lia | apply Z.ltb_lt; reflexivity] |].
    split; [exact A0 | exact A1].
Defined.

Lemma batch_preflight_messages_witness :
  batch_create_rgba_optimized (disk_imread demo_inputs) (disk_imwrite []) ∅ 8 1500 []
    demo_image_paths demo_masks ["out/a.png"; "out/b.png"]
  = (Throws (invalid_argument "Number of image paths must match output paths"), ∅, []).
Proof.
  destruct (batch_preflight_messages (gmap string Mat) (disk_imread demo_inputs)
              (disk_imwrite []) ∅ 8 1500 [] demo_image_paths demo_masks
              ["out/a.png"; "out/b.png"] demo_fit) as (_ & Hsecond & _).
  apply Hsecond.
  - discriminate.
  - cbn. lia.
Defined.

Lemma batch_threads_agree_with_info_witness :
  exists threads parallelism,
    build_results (processed (demo_loop [])) (errors (demo_loop []))
      (output_files (demo_loop [])) 1500 (to_int (shape_at demo_masks 1))
      (to_int (shape_at demo_masks 2)) (max_threads_of 8) !! "threads_used"
    = Some (PyInt threads) /\
    get_optimization_info (mkBuild (Some 201511) false true true true true) 4 8 8
      !! "hardware_concurrency" = Some (InfoInt parallelism) /\
    threads = Z.min 4 parallelism /\ threads <= 4.
Proof.
  exact (batch_threads_agree_with_info (gmap string Mat) (disk_imread demo_inputs)
           (disk_imwrite []) ∅ 8 1500 [] demo_image_paths demo_masks demo_output_paths
           _ _ _ (mkBuild (Some 201511) false true true true true) 4 8 (demo_returns [])).
Defined.

Lemma demo_missing_preconditions :
  batch_preconditions ["in/x.jpg"; "in/y.jpg"; "in/z.jpg"] demo_masks demo_output_paths.
Proof. unfold batch_preconditions. cbn. repeat split; lia. Qed.

Lemma batch_none_processed_metrics_witness :
  exists report w' tr,
    batch_create_rgba_optimized (disk_imread demo_inputs) (disk_imwrite []) ∅ 8 1500 []
      ["in/x.jpg"; "in/y.jpg"; "in/z.jpg"] demo_masks demo_output_paths
    = (Returns report, w', tr) /\
    report !! "throughput_mpix_per_sec" = Some (PyFloat 0) /\
    report !! "avg_time_per_image_ms" = Some (PyFloat 0).
Proof.
  eexists _, _, _.
  pose proof (batch_returns (gmap string Mat) (disk_imread demo_inputs) (disk_imwrite [])
                ∅ 8 1500 [] ["in/x.jpg"; "in/y.jpg"; "in/z.jpg"] demo_masks
                demo_output_paths demo_fit demo_missing_preconditions) as Hcall.
  split; [exact Hcall |].
  apply (batch_none_processed_metrics (gmap string Mat) (disk_imread demo_inputs)
           (disk_imwrite []) ∅ 8 1500 [] ["in/x.jpg"; "in/y.jpg"; "in/z.jpg"] demo_masks
           demo_output_paths _ _ _ Hcall).
  - rewrite results_processed. reflexivity.
  - reflexivity.
Defined.

Lemma batch_io_footprint_witness :
  exists report w' tr files,
    demo_batch [1; 2; 0]%nat = (Returns report, w', tr) /\
    report !! "output_files" = Some (PyStrList files) /\
    read_paths tr ≡ₚ demo_image_paths /\
    written_paths tr ⊆+ demo_output_paths /\
    files ⊆+ written_paths tr.
Proof.
  unfold demo_batch.
  exact (batch_io_footprint (gmap string Mat) (disk_imread demo_inputs) (disk_imwrite [])
           (disk_imwrite_needs_name []) ∅ 8 1500 [1; 2; 0]%nat demo_image_paths demo_masks
           demo_output_paths demo_fit demo_preconditions).
Defined.

Lemma demo_stable :
  stable_outcomes (disk_imread demo_inputs) (disk_imwrite [])
    (tasks_of demo_image_paths demo_masks demo_output_paths).
Proof.
  split; [intros; reflexivity |].
  intros w w' i rgba rgba'. unfold write_ok, disk_imwrite.
  destruct (string_empty (path_at
              (ts_output_paths (tasks_of demo_image_paths demo_masks demo_output_paths)) i));
    [reflexivity |].
  destruct (bool_decide (path_at
              (ts_output_paths (tasks_of demo_image_paths demo_masks demo_output_paths)) i
            ∈ [])); reflexivity.
Qed.

Lemma batch_outcome_determined_witness :
  phases (demo_loop [2; 1; 0]%nat)
  = phases (batch_loop (disk_imread demo_inputs) (disk_imwrite []) ∅ [0; 0; 1]%nat
              demo_image_paths (mkPyArray [3; 1; 2] [0; 0; 0; 0; 0; 0]) demo_output_paths) /\
  (demo_batch [2; 1; 0]%nat).1.1
  = (batch_create_rgba_optimized (disk_imread demo_inputs) (disk_imwrite []) ∅ 8 1500
       [0; 0; 1]%nat demo_image_paths (mkPyArray [3; 1; 2] [0; 0; 0; 0; 0; 0])
       demo_output_paths).1.1.
Proof.
  unfold demo_batch, demo_loop.
  apply (batch_outcome_determined (gmap string Mat) (disk_imread demo_inputs)
           (disk_imwrite []) (disk_imwrite_needs_name []) ∅ 8 1500 [2; 1; 0]%nat
           [0; 0; 1]%nat demo_image_paths demo_masks (mkPyArray [3; 1; 2] [0; 0; 0; 0; 0; 0])
           demo_output_paths demo_fit demo_preconditions).
  - reflexivity.
  - exact demo_stable.
Defined.

Lemma batch_pixel_total_fits_witness :
  exists report w' tr count,
    demo_batch [] = (Returns report, w', tr) /\
    report !! "processed" = Some (PyInt count) /\
    0 <= count <= Z.of_nat (length demo_image_paths) /\
    total_pixels_of count (to_int (shape_at demo_masks 1)) (to_int (shape_at demo_masks 2))
    = count * shape_at demo_masks 1 * shape_at demo_masks 2 /\
    0 <= total_pixels_of count (to_int (shape_at demo_masks 1))
           (to_int (shape_at demo_masks 2))
      <= Z.of_nat (length demo_image_paths) * shape_at demo_masks 1 * shape_at demo_masks 2.
Proof.
  unfold demo_batch.
  apply (batch_pixel_total_fits (gmap string Mat) (disk_imread demo_inputs)
           (disk_imwrite []) (disk_imwrite_needs_name []) ∅ 8 1500 [] demo_image_paths
           demo_masks demo_output_paths demo_fit demo_preconditions).
  - unfold INT_MAX. cbn. lia.
  - unfold INT_MAX. cbn. lia.
  - unfold INT_MAX. cbn. lia.
Defined.
